(** * go-cache: the two-tier HybridCache of [cache.go]

    A shallow embedding of [src/cache.go] (package [cache]) and the
    properties of its tiering policy.

    The coordinator owns no storage of its own: every method is a short
    sequence of calls on two collaborators, the in-process cache
    (ristretto, field [InMemoryCache]) and the remote store (go-redis,
    field [Redis]).  Both are third-party engines, so they enter the
    development as interfaces ([LocalStore], [RemoteStore]) over an abstract
    state; the methods of [HybridCache] are written once, against the
    interfaces, in a small state monad that also records every collaborator
    call in the order the code issues it.

    Conventions
    - Go [string] is [string]; [[]byte] is [list byte]; a nil slice and an
      empty slice are both [[]] (they hold the same bytes).
    - [time.Duration] (int64), the [int64] cost and the [uint64] scan cursor
      are [Z]; the code does no arithmetic on any of them.
    - [context.Context] carries nothing the coordinator reads and is left
      out of the signatures.
    - Both handles of a [HybridCache] are taken to be non-nil, and calls are
      sequential (one goroutine). *)

From Stdlib Require Import ZArith NArith List Lia.
From Stdlib.Strings Require Import String Ascii Byte.
From stdpp Require Import base tactics option list strings gmap.

Local Open Scope Z_scope.

(** ** Go values the code passes around *)

Module Go.

(** [time.Duration] *)
Definition Duration := Z.

(** The Go [error] values the code can see.  [Nil] is [redis.Nil], the
    reply of a [GET] on an absent key; every other failure (network,
    protocol, server) is [Failure] with its message. *)
Inductive error : Type :=
| Nil
| Failure (msg : string).

(** An [interface{}] held by the in-process cache: the coordinator stores
    [[]byte], anything else is [Other]. *)
Inductive any : Type :=
| Bytes (b : list byte)
| Other (tag : string).

(** [[]byte(s)] and [string(b)] *)
Definition bytes_of_string (s : string) : list byte := list_byte_of_string s.
Definition string_of_bytes (b : list byte) : string := string_of_list_byte b.

Definition byte_of_Z (z : Z) : byte := byte_of_ascii (ascii_of_N (Z.to_N z)).
Definition Z_of_byte (b : byte) : Z := Z.of_N (Byte.to_N b).

End Go.

(** ** encoding/hex *)

Module Hex.

Definition hextable : string := "0123456789abcdef".

Definition digit (n : Z) : ascii :=
  match String.get (Z.to_nat n) hextable with
  | Some c => c
  | None => "0"%char
  end.

(** [hex.EncodeToString]: two characters per byte, high nibble first. *)
Fixpoint EncodeToString (src : list byte) : string :=
  match src with
  | [] => EmptyString
  | v :: rest =>
      String (digit (Z.shiftr (Go.Z_of_byte v) 4))
        (String (digit (Z.land (Go.Z_of_byte v) 0x0f)) (EncodeToString rest))
  end.

Definition is_lower_hex (c : ascii) : bool :=
  let n := Z.of_N (N_of_ascii c) in
  ((48 <=? n) && (n <=? 57)) || ((97 <=? n) && (n <=? 102)).

End Hex.

(** ** crypto/sha256 (FIPS 180-4), over 32-bit words held in [Z] *)

Module SHA256.

Definition word := Z.

Definition wrap (x : Z) : word := x mod 2 ^ 32.
Definition add32 (x y : word) : word := wrap (x + y).
Definition not32 (x : word) : word := Z.lxor x 0xffffffff.
Definition rotr (n : Z) (x : word) : word :=
  Z.lor (Z.shiftr x n) (wrap (Z.shiftl x (32 - n))).
Definition shr (n : Z) (x : word) : word := Z.shiftr x n.

Definition Ch (x y z : word) : word :=
  Z.lxor (Z.land x y) (Z.land (not32 x) z).
Definition Maj (x y z : word) : word :=
  Z.lxor (Z.lxor (Z.land x y) (Z.land x z)) (Z.land y z).
Definition bsig0 (x : word) : word :=
  Z.lxor (Z.lxor (rotr 2 x) (rotr 13 x)) (rotr 22 x).
Definition bsig1 (x : word) : word :=
  Z.lxor (Z.lxor (rotr 6 x) (rotr 11 x)) (rotr 25 x).
Definition ssig0 (x : word) : word :=
  Z.lxor (Z.lxor (rotr 7 x) (rotr 18 x)) (shr 3 x).
Definition ssig1 (x : word) : word :=
  Z.lxor (Z.lxor (rotr 17 x) (rotr 19 x)) (shr 10 x).

(** The constants as FIPS 180-4 defines them: [K] is the first 32 bits of
    the fractional parts of the cube roots of the first 64 primes, and the
    initial chaining value the same of the square roots of the first 8. *)
Definition is_prime (n : nat) : bool :=
  forallb (λ d, negb (n mod d =? 0)%nat) (seq 2 (n - 2)).

Definition primes : list Z :=
  map Z.of_nat (List.filter is_prime (seq 2 310)).

(** The integer cube root of [n], below [2 ^ bits], one bit at a time. *)
Fixpoint cube_root (bits : nat) (n r : Z) : Z :=
  match bits with
  | O => r
  | S bits' =>
      let r' := r + 2 ^ Z.of_nat bits' in
      cube_root bits' n (if r' * r' * r' <=? n then r' else r)
  end.

Definition K : list word :=
  Eval vm_compute in map (λ p, wrap (cube_root 36 (p * 2 ^ 96) 0)) primes.

(** The eight working words [a..h], also the chaining value [h0..h7]. *)
Definition state : Type := word * word * word * word * word * word * word * word.

Definition frac_sqrt (p : Z) : word := wrap (Z.sqrt (p * 2 ^ 64)).

Definition init : state :=
  Eval vm_compute in
    (frac_sqrt 2, frac_sqrt 3, frac_sqrt 5, frac_sqrt 7,
     frac_sqrt 11, frac_sqrt 13, frac_sqrt 17, frac_sqrt 19).

(** Big-endian word <-> bytes. *)
Definition be32 (w : word) : list byte :=
  [ Go.byte_of_Z (Z.land (Z.shiftr w 24) 0xff);
    Go.byte_of_Z (Z.land (Z.shiftr w 16) 0xff);
    Go.byte_of_Z (Z.land (Z.shiftr w 8) 0xff);
    Go.byte_of_Z (Z.land w 0xff) ].

Definition be64 (n : Z) : list byte :=
  be32 (Z.land (Z.shiftr n 32) 0xffffffff) ++ be32 (Z.land n 0xffffffff).

Fixpoint words_of (fuel : nat) (p : list byte) : list word :=
  match fuel, p with
  | S fuel', b0 :: b1 :: b2 :: b3 :: rest =>
      Z.lor (Z.lor (Z.lor (Z.shiftl (Go.Z_of_byte b0) 24) (Z.shiftl (Go.Z_of_byte b1) 16))
               (Z.shiftl (Go.Z_of_byte b2) 8)) (Go.Z_of_byte b3)
      :: words_of fuel' rest
  | _, _ => []
  end.

(** Message padding: one [0x80], zeros up to 56 mod 64, then the bit
    length on 8 bytes. *)
Definition pad (msg : list byte) : list byte :=
  let len := Z.of_nat (length msg) in
  msg ++ [Go.byte_of_Z 0x80]
      ++ repeat (Go.byte_of_Z 0) (Z.to_nat ((55 - len) mod 64))
      ++ be64 (8 * len).

(** The message schedule: [w] holds the words computed so far. *)
Fixpoint extend (n : nat) (w : list word) : list word :=
  match n with
  | O => w
  | S n' =>
      let i := length w in
      let at_ (k : nat) := nth (i - k) w 0 in
      extend n' (w ++ [add32 (add32 (ssig1 (at_ 2%nat)) (at_ 7%nat))
                            (add32 (ssig0 (at_ 15%nat)) (at_ 16%nat))])
  end.

Definition round (s : state) (kw : word * word) : state :=
  let '(a, b, c, d, e, f, g, h) := s in
  let t1 := add32 (add32 (add32 (add32 h (bsig1 e)) (Ch e f g)) (fst kw)) (snd kw) in
  let t2 := add32 (bsig0 a) (Maj a b c) in
  (add32 t1 t2, a, b, c, add32 d t1, e, f, g).

(** One 64-byte chunk. *)
Definition block (s : state) (chunk : list byte) : state :=
  let w := extend 48 (words_of 16 chunk) in
  let '(a, b, c, d, e, f, g, h) := fold_left round (combine K w) s in
  let '(h0, h1, h2, h3, h4, h5, h6, h7) := s in
  (add32 h0 a, add32 h1 b, add32 h2 c, add32 h3 d,
   add32 h4 e, add32 h5 f, add32 h6 g, add32 h7 h).

Fixpoint blocks (n : nat) (s : state) (p : list byte) : state :=
  match n with
  | O => s
  | S n' => blocks n' (block s (firstn 64 p)) (skipn 64 p)
  end.

(** [h := sha256.New(); h.Write(data); h.Sum(nil)] *)
Definition Sum (data : list byte) : list byte :=
  let p := pad data in
  let '(h0, h1, h2, h3, h4, h5, h6, h7) := blocks (length p / 64) init p in
  be32 h0 ++ be32 h1 ++ be32 h2 ++ be32 h3 ++ be32 h4 ++ be32 h5 ++ be32 h6 ++ be32 h7.

End SHA256.

(** ** The collaborators

    [call] lists the methods of the two engines that [cache.go] invokes, with
    the arguments it passes.  A pipeline ([Redis.Pipeline()]) is a client-side
    queue: [pipe.Del] only appends to it, and [pipe.Exec] sends the queue as
    one batch. *)

Inductive Cmder : Type :=
| DelCmd (key : string).

Inductive call : Type :=
| CacheSetWithTTL (key : string) (value : Go.any) (cost : Z) (ttl : Go.Duration)
| CacheWait
| CacheGet (key : string)
| CacheDel (key : string)
| CacheClose
| RedisSet (key : string) (value : list byte) (expiration : Go.Duration)
| RedisGet (key : string)
| RedisDel (key : string)
| RedisScan (cursor : Z) (pattern : string) (count : Z)
| RedisPipeline
| PipeExec (cmds : list Cmder).

(** The in-process cache, [*ristretto.Cache], as the code uses it. *)
Class LocalStore (L : Type) : Type := {
  cache_SetWithTTL : string → Go.any → Z → Go.Duration → L → L * bool;
  cache_Wait : L → L;
  cache_Get : string → L → L * (Go.any * bool);
  cache_Del : string → L → L;
  cache_Close : L → L
}.

(** The remote store, [*redis.Client]; each reply is the [Result()] of the
    command, with [None] for a nil [error]. *)
Class RemoteStore (R : Type) : Type := {
  redis_Set : string → list byte → Go.Duration → R → R * option Go.error;
  redis_Get : string → R → R * (string * option Go.error);
  redis_Del : string → R → R * option Go.error;
  redis_Scan : Z → string → Z → R → R * (list string * Z * option Go.error);
  redis_Exec : list Cmder → R → R * option Go.error
}.

(** ** The coordinator *)

Record HybridCache : Type := {
  Prefix : string;
  ExpiresInMemory : Go.Duration;
  ExpiresRedis : Go.Duration
}.

(** What a method runs against: the states behind the two handles
    [hc.InMemoryCache] and [hc.Redis], and the calls made so far. *)
Record world (L R : Type) : Type := World {
  local : L;
  remote : R;
  calls : list call
}.
Arguments World {L R} _ _ _.
Arguments local {L R} _.
Arguments remote {L R} _.
Arguments calls {L R} _.

(** How a method ends: it returns, it panics (a failed type assertion), or
    its loop is still running when the iteration budget is spent. *)
Inductive outcome (W A : Type) : Type :=
| Returned (a : A) (w : W)
| Panicked (w : W)
| Spinning (w : W).
Arguments Returned {W A} _ _.
Arguments Panicked {W A} _.
Arguments Spinning {W A} _.

Definition final {W A} (o : outcome W A) : W :=
  match o with
  | Returned _ w | Panicked w | Spinning w => w
  end.

Definition returned {W A} (o : outcome W A) : option A :=
  match o with
  | Returned a _ => Some a
  | Panicked _ | Spinning _ => None
  end.

Section Coordinator.

Context {L R : Type} `{!LocalStore L, !RemoteStore R}.

Definition M (A : Type) : Type := world L R → outcome (world L R) A.

#[global] Instance M_ret : MRet M := λ A a w, Returned a w.

#[global] Instance M_bind : MBind M := λ A B k m w,
  match m w with
  | Returned a w' => k a w'
  | Panicked w' => Panicked w'
  | Spinning w' => Spinning w'
  end.

Definition panic {A} : M A := λ w, Panicked w.
Definition spin {A} : M A := λ w, Spinning w.

(** A call on the local handle, on the remote handle, or on the client
    alone. *)
Definition on_cache {A} (c : call) (f : L → L * A) : M A := λ w,
  Returned (f (local w)).2 (World (f (local w)).1 (remote w) (calls w ++ [c])).

Definition on_redis {A} (c : call) (f : R → R * A) : M A := λ w,
  Returned (f (remote w)).2 (World (local w) (f (remote w)).1 (calls w ++ [c])).

Definition on_client {A} (c : call) (a : A) : M A := λ w,
  Returned a (World (local w) (remote w) (calls w ++ [c])).

Definition InMemoryCache_SetWithTTL key value cost ttl : M bool :=
  on_cache (CacheSetWithTTL key value cost ttl) (cache_SetWithTTL key value cost ttl).
Definition InMemoryCache_Wait : M unit :=
  on_cache CacheWait (λ l, (cache_Wait l, ())).
Definition InMemoryCache_Get key : M (Go.any * bool) :=
  on_cache (CacheGet key) (cache_Get key).
Definition InMemoryCache_Del key : M unit :=
  on_cache (CacheDel key) (λ l, (cache_Del key l, ())).
Definition InMemoryCache_Close : M unit :=
  on_cache CacheClose (λ l, (cache_Close l, ())).

Definition Redis_Set key value expiration : M (option Go.error) :=
  on_redis (RedisSet key value expiration) (redis_Set key value expiration).
Definition Redis_Get key : M (string * option Go.error) :=
  on_redis (RedisGet key) (redis_Get key).
Definition Redis_Del key : M (option Go.error) :=
  on_redis (RedisDel key) (redis_Del key).
Definition Redis_Scan cursor pattern count : M (list string * Z * option Go.error) :=
  on_redis (RedisScan cursor pattern count) (redis_Scan cursor pattern count).
Definition Redis_Pipeline : M (list Cmder) :=
  on_client RedisPipeline [].
Definition pipe_Del (pipe : list Cmder) (key : string) : list Cmder :=
  pipe ++ [DelCmd key].
Definition pipe_Exec (pipe : list Cmder) : M (option Go.error) :=
  on_redis (PipeExec pipe) (redis_Exec pipe).

(** [SetInMemoryCache]: set value with cost 1, then wait for the value to
    pass through the buffers. *)
Definition SetInMemoryCache (hc : HybridCache) (key : string) (value : list byte) : M unit :=
  _ ← InMemoryCache_SetWithTTL key (Go.Bytes value) 1 (ExpiresInMemory hc);
  InMemoryCache_Wait.

(** [SetInRedis]: the reply of the command is dropped. *)
Definition SetInRedis (hc : HybridCache) (key : string) (value : list byte)
    (expiration : Go.Duration) : M unit :=
  _ ← Redis_Set key value expiration;
  mret ().

(** [Set] (the name is reserved in Rocq) *)
Definition Set_ (hc : HybridCache) (key : string) (value : list byte) : M unit :=
  _ ← SetInMemoryCache hc key value;
  SetInRedis hc key value (ExpiresRedis hc).

Definition SetWithTTL (hc : HybridCache) (key : string) (value : list byte)
    (expiration : Go.Duration) : M unit :=
  _ ← SetInMemoryCache hc key value;
  SetInRedis hc key value expiration.

(** [GetFromInMemoryCache]: [value.([]byte)] panics on anything that is not
    a byte slice. *)
Definition GetFromInMemoryCache (hc : HybridCache) (key : string) : M (list byte * bool) :=
  '(value, found) ← InMemoryCache_Get key;
  if negb found then mret ([], false)
  else match value with
       | Go.Bytes b => mret (b, true)
       | Go.Other _ => panic
       end.

Definition GetFromRedis (hc : HybridCache) (key : string) : M (list byte * bool) :=
  '(data, err) ← Redis_Get key;
  match err with
  | Some _ => mret ([], false)
  | None => mret (Go.bytes_of_string data, true)
  end.

Definition Get (hc : HybridCache) (key : string) : M (list byte * bool) :=
  '(value, found) ← GetFromInMemoryCache hc key;
  if negb found then
    '(value, found) ← GetFromRedis hc key;
    _ ← (if (found : bool) then SetInMemoryCache hc key value else mret ());
    mret (value, found)
  else mret (value, found).

Definition DelFromInMemoryCache (hc : HybridCache) (key : string) : M unit :=
  InMemoryCache_Del key.

Definition DelFromRedis (hc : HybridCache) (key : string) : M unit :=
  _ ← Redis_Del key;
  mret ().

Definition Del (hc : HybridCache) (key : string) : M unit :=
  _ ← DelFromInMemoryCache hc key;
  DelFromRedis hc key.

(** [for _, key := range keys { pipe.Del(ctx, key) }] *)
Definition queue_dels (pipe : list Cmder) (keys : list string) : list Cmder :=
  fold_left pipe_Del keys pipe.

Definition DelMultipleKeysFromRedis (hc : HybridCache) (keys : list string)
    : M (option Go.error) :=
  if (length keys =? 0)%nat then mret None
  else
    pipe ← Redis_Pipeline;
    err ← pipe_Exec (queue_dels pipe keys);
    match err with
    | Some e => mret (Some e)
    | None => mret None
    end.

(** The [for { ... }] of [DeleteKeysByPatternFromRedis], at most [fuel]
    iterations of it: [inr err] is the [return err] inside the loop, [inl
    keys] the [break]. *)
Fixpoint scan_loop (fuel : nat) (pattern : string) (cursor : Z) (keys : list string)
    : M (list string + Go.error) :=
  match fuel with
  | O => spin
  | S fuel' =>
      '(scannedKeys, nextCursor, err) ← Redis_Scan cursor pattern 100;
      match err with
      | Some e => mret (inr e)
      | None =>
          let keys := keys ++ scannedKeys in
          let cursor := nextCursor in
          if cursor =? 0 then mret (inl keys)
          else scan_loop fuel' pattern cursor keys
      end
  end.

Definition DeleteKeysByPatternFromRedis (fuel : nat) (hc : HybridCache) (pattern : string)
    : M (option Go.error) :=
  looped ← scan_loop fuel pattern 0 [];
  match looped with
  | inr err => mret (Some err)
  | inl keys =>
      if (length keys =? 0)%nat then mret None
      else
        pipe ← Redis_Pipeline;
        err ← pipe_Exec (queue_dels pipe keys);
        match err with
        | Some e => mret (Some e)
        | None => mret None
        end
  end.

Definition Close (hc : HybridCache) : M unit :=
  InMemoryCache_Close.

End Coordinator.

Arguments M L R A : clear implicits.

(** [GetCacheKey]: [fmt.Sprintf("%s:%s", hc.Prefix, hex.EncodeToString(sum))]
    with [sum] the SHA-256 of [[]byte(data)].  It touches neither handle. *)
Definition GetCacheKey (hc : HybridCache) (data : string) : string :=
  (Prefix hc ++ ":" ++ Hex.EncodeToString (SHA256.Sum (Go.bytes_of_string data)))%string.

(** ** The coordinator's operations as data

    The seven operations of the public surface that act on the tiers, for
    statements that range over all of them. *)

Inductive op : Type :=
| OpSet (key : string) (value : list byte)
| OpSetWithTTL (key : string) (value : list byte) (expiration : Go.Duration)
| OpGet (key : string)
| OpDel (key : string)
| OpDelMultipleKeysFromRedis (keys : list string)
| OpDeleteKeysByPatternFromRedis (fuel : nat) (pattern : string)
| OpClose.

Definition is_scan (c : call) : bool :=
  match c with
  | RedisScan _ _ _ => true
  | _ => false
  end.

(** Calls on the remote handle (and its pipelines). *)
Definition is_redis (c : call) : bool :=
  match c with
  | RedisSet _ _ _ | RedisGet _ | RedisDel _ | RedisScan _ _ _
  | RedisPipeline | PipeExec _ => true
  | _ => false
  end.

Section Operations.

Context {L R : Type} `{!LocalStore L, !RemoteStore R}.

Definition run_op (hc : HybridCache) (o : op) : M L R unit :=
  match o with
  | OpSet key value => Set_ hc key value
  | OpSetWithTTL key value expiration => SetWithTTL hc key value expiration
  | OpGet key => _ ← Get hc key; mret ()
  | OpDel key => Del hc key
  | OpDelMultipleKeysFromRedis keys => _ ← DelMultipleKeysFromRedis hc keys; mret ()
  | OpDeleteKeysByPatternFromRedis fuel pattern =>
      _ ← DeleteKeysByPatternFromRedis fuel hc pattern; mret ()
  | OpClose => Close hc
  end.

(** One operation after the other; a panic or a spinning loop ends the
    run. *)
Fixpoint run_ops (hc : HybridCache) (os : list op) : M L R unit :=
  match os with
  | [] => mret ()
  | o :: rest => _ ← run_op hc o; run_ops hc rest
  end.

(** The local tier takes a write: once [SetWithTTL] with cost 1 and [Wait]
    have run from [l], a [Get] of the key finds the value. *)
Definition admits (l : L) (key : string) (value : Go.any) (ttl : Go.Duration) : Prop :=
  (cache_Get key (cache_Wait (cache_SetWithTTL key value 1 ttl l).1)).2 = (value, true).

(** The local tier has dropped the write (rejected or evicted it) but the
    remote tier has kept it: after [SetWithTTL], [Wait] on [l] a [Get]
    misses, and after [Set] on [r] a [Get] replies with the same bytes. *)
Definition falls_back (l : L) (r : R) (key : string) (value : list byte)
    (ttl expiration : Go.Duration) : Prop :=
  (cache_Get key (cache_Wait (cache_SetWithTTL key (Go.Bytes value) 1 ttl l).1)).2.2 = false
  ∧ (redis_Get key (redis_Set key value expiration r).1).2
    = (Go.string_of_bytes value, None).

(** [scanned pattern c r pages c' r']: starting at cursor [c] in state [r],
    the store answers the scans of [pages] (cursor sent, keys replied) one
    after the other, each with a nil error and a non-zero next cursor;
    [c'] is the last of these cursors and [r'] the state they leave. *)
Inductive scanned (pattern : string) : Z → R → list (Z * list string) → Z → R → Prop :=
| scanned_nil c r : scanned pattern c r [] c r
| scanned_cons c r ks c1 r1 pages c' r' :
    redis_Scan c pattern 100 r = (r1, (ks, c1, None)) →
    c1 ≠ 0 →
    scanned pattern c1 r1 pages c' r' →
    scanned pattern c r ((c, ks) :: pages) c' r'.

Definition scan_calls (pattern : string) (pages : list (Z * list string)) : list call :=
  map (λ p, RedisScan p.1 pattern 100) pages.

Definition scanned_keys (pages : list (Z * list string)) : list string :=
  concat (map snd pages).


(** The calls an operation can make, case by case. *)
Definition emits (hc : HybridCache) (w : world L R) (o : op) (cs : list call) : Prop :=
  match o with
  | OpSet key value =>
      cs = [CacheSetWithTTL key (Go.Bytes value) 1 (ExpiresInMemory hc); CacheWait;
            RedisSet key value (ExpiresRedis hc)]
  | OpSetWithTTL key value expiration =>
      cs = [CacheSetWithTTL key (Go.Bytes value) 1 (ExpiresInMemory hc); CacheWait;
            RedisSet key value expiration]
  | OpGet key =>
      cs = [CacheGet key]
      ∨ cs = [CacheGet key; RedisGet key]
      ∨ ∃ data, (redis_Get key (remote w)).2 = (data, None)
                ∧ cs = [CacheGet key; RedisGet key;
                        CacheSetWithTTL key (Go.Bytes (Go.bytes_of_string data)) 1
                          (ExpiresInMemory hc);
                        CacheWait]
  | OpDel key => cs = [CacheDel key; RedisDel key]
  | OpDelMultipleKeysFromRedis _ | OpDeleteKeysByPatternFromRedis _ _ =>
      forallb is_redis cs = true
  | OpClose => cs = [CacheClose]
  end.

End Operations.

(** The costs charged by the local writes among [cs]. *)
Definition write_costs (cs : list call) : list Z :=
  flat_map (λ c, match c with
                 | CacheSetWithTTL _ _ cost _ => [cost]
                 | _ => []
                 end) cs.

Definition total (costs : list Z) : Z := fold_right Z.add 0 costs.

(** ** Test doubles for the two engines

    A map-backed cache that admits every write, and a map-backed server
    whose [SCAN] walks its keys [chunk] at a time (the count argument is a
    hint, as in Redis) and which can be switched off or made to fail at one
    cursor.  Neither keeps time: expirations are accepted and ignored. *)

Module Mock.

#[global] Instance cache : LocalStore (gmap string Go.any) := {|
  cache_SetWithTTL key value cost ttl l := (<[key := value]> l, true);
  cache_Wait l := l;
  cache_Get key l :=
    (l, match l !! key with
        | Some v => (v, true)
        | None => (Go.Other "nil", false)
        end);
  cache_Del key l := delete key l;
  cache_Close l := l
|}.

Record Server : Type := {
  kv : gmap string string;
  chunk : nat;
  down : bool;
  scan_fault : option Z
}.

Definition refused : Go.error := Go.Failure "connection refused".

Definition with_kv (r : Server) (m : gmap string string) : Server :=
  {| kv := m; chunk := chunk r; down := down r; scan_fault := scan_fault r |}.

(** Glob matching with [*] and [?] only (no character classes, no
    escapes). *)
Fixpoint glob (p : string) : string → bool :=
  match p with
  | EmptyString => λ s, match s with EmptyString => true | _ => false end
  | String c p' =>
      if Ascii.eqb c "*" then
        fix star (s : string) : bool :=
          glob p' s || match s with
                       | EmptyString => false
                       | String _ s' => star s'
                       end
      else λ s,
        match s with
        | EmptyString => false
        | String d s' => (Ascii.eqb c "?" || Ascii.eqb c d) && glob p' s'
        end
  end.

(** The client sends no [MATCH] for the empty pattern, so every key is
    replied. *)
Definition matches (pattern : string) (key : string) : bool :=
  match pattern with
  | EmptyString => true
  | _ => glob pattern key
  end.

Definition scan (cursor : Z) (pattern : string) (r : Server)
    : list string * Z * option Go.error :=
  if down r then ([], 0, Some refused)
  else if decide (scan_fault r = Some cursor)
  then ([], 0, Some (Go.Failure "scan interrupted"))
  else
    let keys := (map_to_list (kv r)).*1 in
    let start := Z.to_nat cursor in
    let next := (start + chunk r)%nat in
    (List.filter (matches pattern) (take (chunk r) (drop start keys)),
     if (next <? length keys)%nat then Z.of_nat next else 0,
     None).

Definition exec (cmds : list Cmder) (m : gmap string string) : gmap string string :=
  fold_left (λ m c, match c with DelCmd key => delete key m end) cmds m.

#[global] Instance server : RemoteStore Server := {|
  redis_Set key value expiration r :=
    if down r then (r, Some refused)
    else (with_kv r (<[key := Go.string_of_bytes value]> (kv r)), None);
  redis_Get key r :=
    if down r then (r, (EmptyString, Some refused))
    else (r, match kv r !! key with
             | Some s => (s, None)
             | None => (EmptyString, Some Go.Nil)
             end);
  redis_Del key r :=
    if down r then (r, Some refused)
    else (with_kv r (delete key (kv r)), None);
  redis_Scan cursor pattern count r := (r, scan cursor pattern r);
  redis_Exec cmds r :=
    if down r then (r, Some refused)
    else (with_kv r (exec cmds (kv r)), None)
|}.

(** A cache with no room: it drops every write. *)
#[global] Instance full_cache : LocalStore unit := {|
  cache_SetWithTTL key value cost ttl l := (l, false);
  cache_Wait l := l;
  cache_Get key l := (l, (Go.Other "nil", false));
  cache_Del key l := l;
  cache_Close l := l
|}.

Definition up (m : gmap string string) (n : nat) : Server :=
  {| kv := m; chunk := n; down := false; scan_fault := None |}.

Definition off : Server :=
  {| kv := ∅; chunk := 1; down := true; scan_fault := None |}.

(** Four keys, scanned one at a time in the order [q:1], [r:1], [p:1],
    [p:2]. *)
Definition four : gmap string string :=
  list_to_map [("p:1", "a"); ("p:2", "b"); ("q:1", "c"); ("r:1", "d")]%string.

Definition paged : Server := up four 1.

Definition faulty : Server :=
  {| kv := four; chunk := 1; down := false; scan_fault := Some 3 |}.

Definition start (r : Server) : world (gmap string Go.any) Server :=
  World ∅ r [].

(** The coordinator, key and value of [cache_test.go]: 5 and 10 minutes,
    in nanoseconds. *)
Definition hc : HybridCache :=
  {| Prefix := "test"; ExpiresInMemory := 300000000000; ExpiresRedis := 600000000000 |}.

Definition testKey : string := "testKey".
Definition testValue : list byte := Go.bytes_of_string "testValue".
Definition v2 : list byte := Go.bytes_of_string "v2".

End Mock.

(** ** The constructor

    [NewHybridCache] builds the in-process cache from a [ristretto.Config] it
    derives from the option, and stops the process ([log.Fatalf]) when the
    engine refuses the configuration.  The engine's constructor is passed
    in; [MaxCost] and [NumCounters] are [int64]. *)

Definition int64 (z : Z) : Z := (z + 2 ^ 63) mod 2 ^ 64 - 2 ^ 63.

Definition is_int64 (z : Z) : Prop := - 2 ^ 63 ≤ z < 2 ^ 63.

Module Ristretto.

Record Config : Type := {
  MaxCost : Z;
  NumCounters : Z;
  BufferItems : Z
}.

End Ristretto.

Module HybridCacheOption.

Record t : Type := {
  ExpiresInMemory : Go.Duration;
  ExpiresRedis : Go.Duration;
  Prefix : string;
  MaxCost : Z
}.

End HybridCacheOption.

(** The [&inMemCLib.Config{...}] of [NewHybridCache]. *)
Definition NewHybridCache_Config (option : HybridCacheOption.t) : Ristretto.Config :=
  let maxCost := HybridCacheOption.MaxCost option in
  let maxCost := if maxCost =? 0 then 100 else maxCost in
  {| Ristretto.MaxCost := maxCost;
     Ristretto.NumCounters := int64 (maxCost * 10);
     Ristretto.BufferItems := 64 |}.

(** [NewHybridCache]: [None] is the exit through [log.Fatalf]; otherwise the
    coordinator and the world it starts in, with the cache just built, the
    client of the option and no call made yet. *)
Definition NewHybridCache {L R : Type} (NewCache : Ristretto.Config → L + Go.error)
    (Redis : R) (option : HybridCacheOption.t)
    : Datatypes.option (HybridCache * world L R) :=
  match NewCache (NewHybridCache_Config option) with
  | inr err => None
  | inl cache =>
      Some ({| Prefix := HybridCacheOption.Prefix option;
               ExpiresInMemory := HybridCacheOption.ExpiresInMemory option;
               ExpiresRedis := HybridCacheOption.ExpiresRedis option |},
            World cache Redis [])
  end.

(** The calls [Get] may make for a key: the two lookups and the promotion. *)
Definition read_call (hc : HybridCache) (key : string) (c : call) : Prop :=
  c = CacheGet key ∨ c = RedisGet key ∨ c = CacheWait
  ∨ ∃ b, c = CacheSetWithTTL key (Go.Bytes b) 1 (ExpiresInMemory hc).

(** ** Reading a key back

    The place of a character in [Hex.hextable], and the byte two such
    characters stand for: the inverse of one step of [Hex.EncodeToString]. *)

Definition hex_value (c : ascii) : Z :=
  let n := Z.of_N (N_of_ascii c) in
  if n <=? 57 then n - 48 else n - 87.

Definition byte_of_hex (hi lo : ascii) : byte :=
  Go.byte_of_Z (16 * hex_value hi + hex_value lo).

(** ** More test doubles

    A read-only replica, which answers reads and scans and refuses every
    write, and a server whose scan never completes: it replies to every scan
    with no key and the cursor 7. *)

Module Replica.

Record t : Type := { data : gmap string string }.

Definition readonly : Go.error :=
  Go.Failure "READONLY You can't write against a read only replica.".

#[global] Instance store : RemoteStore t := {|
  redis_Set key value expiration r := (r, Some readonly);
  redis_Get key r :=
    (r, match data r !! key with
        | Some s => (s, None)
        | None => (EmptyString, Some Go.Nil)
        end);
  redis_Del key r := (r, Some readonly);
  redis_Scan cursor pattern count r :=
    (r, (List.filter (Mock.matches pattern) (map_to_list (data r)).*1, 0, None));
  redis_Exec cmds r := (r, Some readonly)
|}.

Definition holding (key value : string) : t := {| data := {[key := value]} |}.

End Replica.

Module Engine.

(** An option with the budget left unset. *)
Definition unset : HybridCacheOption.t :=
  {| HybridCacheOption.ExpiresInMemory := 1000000000;
     HybridCacheOption.ExpiresRedis := 10000000000;
     HybridCacheOption.Prefix := "app";
     HybridCacheOption.MaxCost := 0 |}.

End Engine.

Module Endless.

Record t : Type := { scans : nat }.

#[global] Instance store : RemoteStore t := {|
  redis_Set key value expiration r := (r, None);
  redis_Get key r := (r, (EmptyString, Some Go.Nil));
  redis_Del key r := (r, None);
  redis_Scan cursor pattern count r := ({| scans := S (scans r) |}, ([], 7, None));
  redis_Exec cmds r := (r, None)
|}.

End Endless.

(** Worlds over the test doubles. *)
Module Worlds.

(** The test key cached locally and stored remotely. *)
Definition both : world (gmap string Go.any) Mock.Server :=
  World {[Mock.testKey := Go.Bytes Mock.testValue]}
        (Mock.up {[Mock.testKey := "testValue"%string]} 1) [].

(** The same, the remote store being a read-only replica. *)
Definition replica : world (gmap string Go.any) Replica.t :=
  World {[Mock.testKey := Go.Bytes Mock.testValue]}
        (Replica.holding Mock.testKey "testValue") [].

(** The key [p:1] cached locally, over the paged server. *)
Definition paged : world (gmap string Go.any) Mock.Server :=
  World {["p:1"%string := Go.Bytes Mock.v2]} Mock.paged [].

(** A string, not a byte slice, cached under the test key. *)
Definition foreign : world (gmap string Go.any) Mock.Server :=
  World {[Mock.testKey := Go.Other "string"]} (Mock.up ∅ 1) [].

Definition endless : world (gmap string Go.any) Endless.t :=
  World ∅ {| Endless.scans := 0 |} [].

End Worlds.

(** * Properties *)

(** ** The monad and the single methods *)

(** Unfolds the monad and the call wrappers down to the stores' functions. *)
Ltac run_calls :=
  unfold InMemoryCache_SetWithTTL, InMemoryCache_Wait, InMemoryCache_Get,
    InMemoryCache_Del, InMemoryCache_Close, Redis_Set, Redis_Get, Redis_Del,
    Redis_Scan, Redis_Pipeline, pipe_Exec, on_cache, on_redis, on_client,
    panic, spin, mbind, mret, M_bind, M_ret;
  cbn.

Section Methods.

Context {L R : Type} `{!LocalStore L, !RemoteStore R}.
Implicit Types (hc : HybridCache) (w : world L R) (key : string).

Lemma bind_Returned {A B} (m : M L R A) (k : A → M L R B) w a w' :
  m w = Returned a w' → (m ≫= k) w = k a w'.
Proof. intros E. unfold mbind, M_bind. by rewrite E. Qed.

Lemma bind_Panicked {A B} (m : M L R A) (k : A → M L R B) w w' :
  m w = Panicked w' → (m ≫= k) w = Panicked w'.
Proof. intros E. unfold mbind, M_bind. by rewrite E. Qed.

Lemma bind_Spinning {A B} (m : M L R A) (k : A → M L R B) w w' :
  m w = Spinning w' → (m ≫= k) w = Spinning w'.
Proof. intros E. unfold mbind, M_bind. by rewrite E. Qed.

Lemma SetInMemoryCache_run hc key value w :
  SetInMemoryCache hc key value w =
  Returned ()
    (World (cache_Wait (cache_SetWithTTL key (Go.Bytes value) 1 (ExpiresInMemory hc) (local w)).1)
           (remote w)
           (calls w ++ [CacheSetWithTTL key (Go.Bytes value) 1 (ExpiresInMemory hc); CacheWait])).
Proof.
  unfold SetInMemoryCache. run_calls. by rewrite <- app_assoc.
Qed.

Lemma SetInRedis_run hc key value expiration w :
  SetInRedis hc key value expiration w =
  Returned ()
    (World (local w) (redis_Set key value expiration (remote w)).1
           (calls w ++ [RedisSet key value expiration])).
Proof. reflexivity. Qed.

Lemma SetWithTTL_run hc key value expiration w :
  SetWithTTL hc key value expiration w =
  Returned ()
    (World (cache_Wait (cache_SetWithTTL key (Go.Bytes value) 1 (ExpiresInMemory hc) (local w)).1)
           (redis_Set key value expiration (remote w)).1
           (calls w ++ [CacheSetWithTTL key (Go.Bytes value) 1 (ExpiresInMemory hc);
                        CacheWait;
                        RedisSet key value expiration])).
Proof.
  unfold SetWithTTL.
  rewrite (bind_Returned _ _ _ _ _ (SetInMemoryCache_run hc key value w)).
  rewrite SetInRedis_run. cbn. by rewrite <- app_assoc.
Qed.

Lemma Set_run hc key value w :
  Set_ hc key value w = SetWithTTL hc key value (ExpiresRedis hc) w.
Proof. reflexivity. Qed.

Lemma GetFromInMemoryCache_hit hc key w b :
  (cache_Get key (local w)).2 = (Go.Bytes b, true) →
  GetFromInMemoryCache hc key w =
  Returned (b, true)
    (World (cache_Get key (local w)).1 (remote w) (calls w ++ [CacheGet key])).
Proof.
  intros E. unfold GetFromInMemoryCache. run_calls. by rewrite E.
Qed.

Lemma GetFromInMemoryCache_miss hc key w :
  (cache_Get key (local w)).2.2 = false →
  GetFromInMemoryCache hc key w =
  Returned ([], false)
    (World (cache_Get key (local w)).1 (remote w) (calls w ++ [CacheGet key])).
Proof.
  intros E. unfold GetFromInMemoryCache. run_calls.
  destruct (cache_Get key (local w)) as [l [v found]]. cbn in *. by subst.
Qed.

Lemma GetFromRedis_hit hc key w data :
  (redis_Get key (remote w)).2 = (data, None) →
  GetFromRedis hc key w =
  Returned (Go.bytes_of_string data, true)
    (World (local w) (redis_Get key (remote w)).1 (calls w ++ [RedisGet key])).
Proof.
  intros E. unfold GetFromRedis. run_calls. by rewrite E.
Qed.

Lemma GetFromRedis_err hc key w e :
  (redis_Get key (remote w)).2.2 = Some e →
  GetFromRedis hc key w =
  Returned ([], false)
    (World (local w) (redis_Get key (remote w)).1 (calls w ++ [RedisGet key])).
Proof.
  intros E. unfold GetFromRedis. run_calls.
  destruct (redis_Get key (remote w)) as [r [data err]]. cbn in *. by subst.
Qed.

Lemma bytes_of_string_of_bytes (b : list byte) :
  Go.bytes_of_string (Go.string_of_bytes b) = b.
Proof. apply list_byte_of_string_of_list_byte. Qed.

Lemma queue_dels_app (pipe : list Cmder) (keys : list string) :
  queue_dels pipe keys = pipe ++ map DelCmd keys.
Proof.
  revert pipe. induction keys as [|key keys IH]; intros pipe; cbn.
  - by rewrite app_nil_r.
  - unfold queue_dels in IH. rewrite IH. unfold pipe_Del. by rewrite <- app_assoc.
Qed.

End Methods.

(** ** Writes and reads through both tiers *)

Section Tiering.

Context {L R : Type} `{!LocalStore L, !RemoteStore R}.
Implicit Types (hc : HybridCache) (w : world L R) (key : string).

Lemma Get_local_hit hc key w b :
  (cache_Get key (local w)).2 = (Go.Bytes b, true) →
  Get hc key w =
  Returned (b, true)
    (World (cache_Get key (local w)).1 (remote w) (calls w ++ [CacheGet key])).
Proof.
  intros E. unfold Get.
  by rewrite (bind_Returned _ _ _ _ _ (GetFromInMemoryCache_hit hc key w b E)).
Qed.

Lemma Get_remote_hit hc key w data :
  (cache_Get key (local w)).2.2 = false →
  (redis_Get key (remote w)).2 = (data, None) →
  Get hc key w =
  Returned (Go.bytes_of_string data, true)
    (World (cache_Wait (cache_SetWithTTL key (Go.Bytes (Go.bytes_of_string data)) 1
                          (ExpiresInMemory hc) (cache_Get key (local w)).1).1)
           (redis_Get key (remote w)).1
           (calls w ++ [CacheGet key; RedisGet key;
                        CacheSetWithTTL key (Go.Bytes (Go.bytes_of_string data)) 1
                          (ExpiresInMemory hc);
                        CacheWait])).
Proof.
  intros Emiss Ehit. unfold Get.
  rewrite (bind_Returned _ _ _ _ _ (GetFromInMemoryCache_miss hc key w Emiss)). cbn.
  erewrite bind_Returned; last by apply GetFromRedis_hit. cbn.
  erewrite bind_Returned; last by apply SetInMemoryCache_run.
  unfold mret, M_ret. cbn. by rewrite <- !app_assoc.
Qed.

Lemma Get_both_miss hc key w e :
  (cache_Get key (local w)).2.2 = false →
  (redis_Get key (remote w)).2.2 = Some e →
  Get hc key w =
  Returned ([], false)
    (World (cache_Get key (local w)).1 (redis_Get key (remote w)).1
           (calls w ++ [CacheGet key; RedisGet key])).
Proof.
  intros Emiss Eerr. unfold Get.
  rewrite (bind_Returned _ _ _ _ _ (GetFromInMemoryCache_miss hc key w Emiss)). cbn.
  erewrite bind_Returned; last by eapply GetFromRedis_err. cbn.
  unfold mbind, mret, M_bind, M_ret. cbn. by rewrite <- !app_assoc.
Qed.

Lemma Get_foreign_value hc key w tag :
  (cache_Get key (local w)).2 = (Go.Other tag, true) →
  GetFromInMemoryCache hc key w
  = Panicked (World (cache_Get key (local w)).1 (remote w) (calls w ++ [CacheGet key]))
  ∧ Get hc key w
    = Panicked (World (cache_Get key (local w)).1 (remote w) (calls w ++ [CacheGet key])).
Proof.
  intros E.
  assert (GetFromInMemoryCache hc key w
          = Panicked (World (cache_Get key (local w)).1 (remote w) (calls w ++ [CacheGet key])))
    as Hlocal.
  { unfold GetFromInMemoryCache. run_calls. by rewrite E. }
  split; first done. unfold Get. by rewrite (bind_Panicked _ _ _ _ Hlocal).
Qed.

(** C1, as the code has it.  [Set(key, value)] followed at once by
    [Get(key)] returns [(value, true)], the bytes unchanged, exactly when at
    least one tier has taken the write: the local tier admits it, or the
    local tier misses and the remote tier replies with what [Set] stored
    there.  [Set] drops what both engines reply, so nothing more is
    promised: when the local tier has dropped the write and the remote [Get]
    replies with an error, [Get] returns [(nil, false)]. *)
Theorem Set_then_Get hc key value w :
  ((∃ w', (Set_ hc key value ≫= λ _, Get hc key) w = Returned (value, true) w')
   ↔ admits (local w) key (Go.Bytes value) (ExpiresInMemory hc)
     ∨ falls_back (local w) (remote w) key value (ExpiresInMemory hc) (ExpiresRedis hc))
  ∧ ∀ e,
      (cache_Get key (cache_Wait (cache_SetWithTTL key (Go.Bytes value) 1
                                    (ExpiresInMemory hc) (local w)).1)).2.2 = false →
      (redis_Get key (redis_Set key value (ExpiresRedis hc) (remote w)).1).2.2 = Some e →
      ∃ w', (Set_ hc key value ≫= λ _, Get hc key) w = Returned ([], false) w'.
Proof.
  erewrite bind_Returned; last by (rewrite Set_run; apply SetWithTTL_run).
  set (l1 := cache_Wait (cache_SetWithTTL key (Go.Bytes value) 1 (ExpiresInMemory hc) (local w)).1).
  set (r1 := (redis_Set key value (ExpiresRedis hc) (remote w)).1).
  set (w1 := World l1 r1 _).
  split; first split.
  - intros [w' Eget].
    destruct (cache_Get key l1) as [l2 [v [|]]] eqn:Elocal.
    + destruct v as [b | tag].
      * rewrite (Get_local_hit hc key w1 b) in Eget by (by cbn; rewrite Elocal).
        injection Eget as -> _. left. unfold admits. fold l1. by rewrite Elocal.
      * destruct (Get_foreign_value hc key w1 tag) as [_ Epanic];
          first by (cbn; rewrite Elocal).
        by rewrite Epanic in Eget.
    + destruct (redis_Get key r1) as [r2 [data [e|]]] eqn:Eremote.
      * rewrite (Get_both_miss hc key w1 e) in Eget
          by (by cbn; rewrite ?Elocal, ?Eremote).
        done.
      * rewrite (Get_remote_hit hc key w1 data) in Eget
          by (by cbn; rewrite ?Elocal, ?Eremote).
        injection Eget as <- _. right. unfold falls_back. fold l1 r1.
        rewrite Elocal, Eremote. split; first done. cbn.
        unfold Go.string_of_bytes, Go.bytes_of_string.
        by rewrite string_of_list_byte_of_string.
  - intros [Hlocal | [Hmiss Hremote]].
    + eexists. by apply Get_local_hit.
    + eexists. erewrite Get_remote_hit; [ | done | done ].
      by rewrite bytes_of_string_of_bytes.
  - intros e Hmiss Herr. eexists. by eapply Get_both_miss.
Qed.

(** C2, as the code has it.  [Get] asks the local tier first: a local hit
    is returned after the single call [CacheGet], with no call on the remote
    store.  On a local miss it asks the remote store, and on a remote hit it
    writes the value to the local tier with [SetWithTTL], [Wait] before it
    returns [(value, true)].  What a [GetFromInMemoryCache] right after
    returns is the engine's doing, since [SetInMemoryCache] drops its reply:
    [(value, true)] when the local tier admits the write, [(nil, false)]
    when it has dropped it. *)
Theorem Get_promotes hc key w :
  (∀ b, (cache_Get key (local w)).2 = (Go.Bytes b, true) →
     ∃ w', Get hc key w = Returned (b, true) w'
           ∧ calls w' = calls w ++ [CacheGet key]
           ∧ remote w' = remote w)
  ∧ (∀ data, (cache_Get key (local w)).2.2 = false →
       (redis_Get key (remote w)).2 = (data, None) →
       let value := Go.bytes_of_string data in
       ∃ w', Get hc key w = Returned (value, true) w'
             ∧ calls w' = calls w ++ [CacheGet key; RedisGet key;
                                      CacheSetWithTTL key (Go.Bytes value) 1 (ExpiresInMemory hc);
                                      CacheWait]
             ∧ (admits (cache_Get key (local w)).1 key (Go.Bytes value) (ExpiresInMemory hc) →
                ∃ w'', GetFromInMemoryCache hc key w' = Returned (value, true) w'')
             ∧ ((cache_Get key (local w')).2.2 = false →
                ∃ w'', GetFromInMemoryCache hc key w' = Returned ([], false) w'')).
Proof.
  split.
  - intros b Ehit. eexists. split; first by apply Get_local_hit. done.
  - intros data Emiss Ehit value. eexists.
    split; first by apply Get_remote_hit.
    split; first done.
    split.
    + intros Hadmit. eexists. by apply GetFromInMemoryCache_hit.
    + intros Hdropped. eexists. by apply GetFromInMemoryCache_miss.
Qed.


(** C7, as the code has it.  Whatever error the remote [Get] replies with,
    [redis.Nil] for an absent key or a failure of the command,
    [GetFromRedis] returns [(nil, false)]: the two are not told apart. *)
Theorem GetFromRedis_error_is_miss hc key w e :
  (redis_Get key (remote w)).2.2 = Some e →
  ∃ w', GetFromRedis hc key w = Returned ([], false) w'
        ∧ calls w' = calls w ++ [RedisGet key].
Proof.
  intros Eerr. eexists. split; first by eapply GetFromRedis_err. done.
Qed.

(** C9.  [DelMultipleKeysFromRedis] on the empty list returns nil and
    leaves the world as it was: no call on either handle, no pipeline.  (On
    a list with a key it opens one pipeline and executes it once, and returns
    the error of that execution.) *)
Theorem DelMultipleKeysFromRedis_empty hc w :
  DelMultipleKeysFromRedis hc [] w = Returned None w
  ∧ ∀ k keys,
      DelMultipleKeysFromRedis hc (k :: keys) w
      = Returned (redis_Exec (map DelCmd (k :: keys)) (remote w)).2
          (World (local w) (redis_Exec (map DelCmd (k :: keys)) (remote w)).1
                 (calls w ++ [RedisPipeline; PipeExec (map DelCmd (k :: keys))])).
Proof.
  split; first reflexivity.
  intros k keys. unfold DelMultipleKeysFromRedis. cbn [length Nat.eqb]. run_calls.
  change (fold_left pipe_Del keys [DelCmd k]) with (queue_dels [DelCmd k] keys).
  rewrite queue_dels_app, <- app_assoc. cbn [app].
  by destruct (redis_Exec _ (remote w)) as [r1 [e|]].
Qed.

End Tiering.

(** ** Deletion by pattern *)

Section PatternDeletion.

Context {L R : Type} `{!LocalStore L, !RemoteStore R}.
Implicit Types (hc : HybridCache) (w : world L R) (pattern : string).

(** One iteration of the loop, for each of the three replies. *)
Lemma scan_loop_more fuel pattern c keys (l : L) (r r1 : R) cs ks c1 :
  redis_Scan c pattern 100 r = (r1, (ks, c1, None)) →
  c1 ≠ 0 →
  scan_loop (S fuel) pattern c keys (World l r cs) =
  scan_loop fuel pattern c1 (keys ++ ks) (World l r1 (cs ++ [RedisScan c pattern 100])).
Proof.
  intros E Hc1. cbn [scan_loop]. run_calls. rewrite E. cbn.
  destruct (Z.eqb_spec c1 0); done.
Qed.

Lemma scan_loop_last fuel pattern c keys (l : L) (r r1 : R) cs ks :
  redis_Scan c pattern 100 r = (r1, (ks, 0, None)) →
  scan_loop (S fuel) pattern c keys (World l r cs) =
  Returned (inl (keys ++ ks)) (World l r1 (cs ++ [RedisScan c pattern 100])).
Proof. intros E. cbn [scan_loop]. run_calls. by rewrite E. Qed.

Lemma scan_loop_error fuel pattern c keys (l : L) (r r1 : R) cs ks c1 e :
  redis_Scan c pattern 100 r = (r1, (ks, c1, Some e)) →
  scan_loop (S fuel) pattern c keys (World l r cs) =
  Returned (inr e) (World l r1 (cs ++ [RedisScan c pattern 100])).
Proof. intros E. cbn [scan_loop]. run_calls. by rewrite E. Qed.

(** The loop follows the pages of a [scanned] run one by one. *)
Lemma scan_loop_scanned pattern c r pages c' r' :
  scanned pattern c r pages c' r' →
  ∀ fuel keys (l : L) cs,
    scan_loop (length pages + fuel) pattern c keys (World l r cs) =
    scan_loop fuel pattern c' (keys ++ scanned_keys pages)
      (World l r' (cs ++ scan_calls pattern pages)).
Proof.
  induction 1 as [c r | c r ks c1 r1 pages c' r' E Hc1 _ IH]; intros fuel keys l cs.
  - cbn. by rewrite !app_nil_r.
  - cbn [length Nat.add]. rewrite (scan_loop_more _ _ _ _ _ _ _ _ _ _ E Hc1).
    rewrite IH. unfold scanned_keys, scan_calls. cbn. by rewrite <- !app_assoc.
Qed.

(** A store that never replies with cursor 0 (nor with an error) keeps the
    loop going for as long as it is run. *)
Lemma scan_loop_spins fuel pattern :
  (∀ c r, (redis_Scan c pattern 100 r).2.2 = None ∧ (redis_Scan c pattern 100 r).2.1.2 ≠ 0) →
  ∀ c keys w, ∃ w', scan_loop fuel pattern c keys w = Spinning w'.
Proof.
  intros Hmore. induction fuel as [|fuel IH]; intros c keys w.
  - by eexists.
  - destruct (redis_Scan c pattern 100 (remote w)) as [r1 [[ks c1] err]] eqn:E.
    destruct (Hmore c (remote w)) as [Herr Hc1]. rewrite E in Herr, Hc1. cbn in Herr, Hc1.
    subst err. destruct w as [l r cs]. cbn in E.
    rewrite (scan_loop_more _ _ _ _ _ _ _ _ _ _ E Hc1). apply IH.
Qed.

(** Scans that leave the store as it was leave it so after any number of
    pages. *)
Lemma scanned_read_only pattern c r pages c' r' :
  (∀ c0 r0, (redis_Scan c0 pattern 100 r0).1 = r0) →
  scanned pattern c r pages c' r' → r' = r.
Proof.
  intros Hro. induction 1 as [| c r ks c1 r1 pages c' r' E _ _ IH]; first done.
  rewrite IH. specialize (Hro c r). by rewrite E in Hro.
Qed.

Lemma scan_calls_are_scans pattern pages c :
  forallb is_scan (scan_calls pattern pages ++ [RedisScan c pattern 100]) = true.
Proof. induction pages as [|p pages IH]; cbn; done. Qed.

(** C3.  When the store answers the scans from cursor 0 with [pages], each
    with a non-zero next cursor (their key lists may be empty), and then
    with a last page whose next cursor is 0, [DeleteKeysByPatternFromRedis]
    issues exactly these scans, each with count 100 and the cursor of the
    reply before it, and returns.  With no key collected it makes no further
    call and returns nil; otherwise it opens one pipeline, queues a delete
    for every collected key in order and executes it once, returning the
    error of that execution. *)
Theorem DeleteKeysByPattern_scans_then_deletes hc pattern w pages c r1 r2 ks fuel :
  scanned pattern 0 (remote w) pages c r1 →
  redis_Scan c pattern 100 r1 = (r2, (ks, 0, None)) →
  (length pages < fuel)%nat →
  let keys := scanned_keys pages ++ ks in
  let scans := scan_calls pattern pages ++ [RedisScan c pattern 100] in
  DeleteKeysByPatternFromRedis fuel hc pattern w =
  match keys with
  | [] => Returned None (World (local w) r2 (calls w ++ scans))
  | _ :: _ =>
      Returned (redis_Exec (map DelCmd keys) r2).2
        (World (local w) (redis_Exec (map DelCmd keys) r2).1
               (calls w ++ scans ++ [RedisPipeline; PipeExec (map DelCmd keys)]))
  end.
Proof.
  intros Hpages Elast Hfuel keys scans.
  replace fuel with (length pages + S (fuel - S (length pages)))%nat by lia.
  unfold DeleteKeysByPatternFromRedis. destruct w as [l r cs]. cbn in Hpages.
  erewrite bind_Returned; last first.
  { rewrite (scan_loop_scanned _ _ _ _ _ _ Hpages). by apply scan_loop_last. }
  cbn. fold keys. destruct keys as [|key keys'] eqn:Ekeys.
  - cbn. unfold mret, M_ret, scans. by rewrite <- app_assoc.
  - cbn [length Nat.eqb]. run_calls.
    change (fold_left pipe_Del keys' [DelCmd key]) with (queue_dels [DelCmd key] keys').
    rewrite queue_dels_app. cbn [app].
    unfold scans. rewrite <- !app_assoc. cbn [app].
    by destruct (redis_Exec _ r2) as [r3 [e|]].
Qed.

(** C4.  When a scan replies with an error, after any number of pages that
    went well, [DeleteKeysByPatternFromRedis] returns that error at once:
    the calls it has made are the scans and nothing else, so no pipeline
    was opened and no delete sent, and the keys collected so far are still
    in the store (the store is as the scans left it, unchanged when scans
    do not write). *)
Theorem DeleteKeysByPattern_scan_error hc pattern w pages c r1 r2 ks c1 e fuel :
  scanned pattern 0 (remote w) pages c r1 →
  redis_Scan c pattern 100 r1 = (r2, (ks, c1, Some e)) →
  (length pages < fuel)%nat →
  ∃ w', DeleteKeysByPatternFromRedis fuel hc pattern w = Returned (Some e) w'
        ∧ calls w' = calls w ++ scan_calls pattern pages ++ [RedisScan c pattern 100]
        ∧ forallb is_scan (scan_calls pattern pages ++ [RedisScan c pattern 100]) = true
        ∧ local w' = local w
        ∧ remote w' = r2
        ∧ ((∀ c0 r0, (redis_Scan c0 pattern 100 r0).1 = r0) → remote w' = remote w).
Proof.
  intros Hpages Eerr Hfuel.
  replace fuel with (length pages + S (fuel - S (length pages)))%nat by lia.
  unfold DeleteKeysByPatternFromRedis. destruct w as [l r cs]. cbn in Hpages.
  erewrite bind_Returned; last first.
  { rewrite (scan_loop_scanned _ _ _ _ _ _ Hpages). by eapply scan_loop_error. }
  cbn. eexists. split; first reflexivity. cbn.
  split; first by rewrite <- app_assoc.
  split; first by apply scan_calls_are_scans.
  split; first done. split; first done.
  intros Hro. rewrite <- (scanned_read_only _ _ _ _ _ _ Hro Hpages).
  specialize (Hro c r1). by rewrite Eerr in Hro.
Qed.

End PatternDeletion.

(** ** Invariants over all operations *)

Section Invariants.

Context {L R : Type} `{!LocalStore L, !RemoteStore R}.
Implicit Types (hc : HybridCache) (w : world L R) (o : op) (cs : list call).

Lemma scan_loop_calls fuel pattern :
  ∀ c keys w, ∃ cs,
    calls (final (scan_loop fuel pattern c keys w)) = calls w ++ cs
    ∧ forallb is_redis cs = true.
Proof.
  induction fuel as [|fuel IH]; intros c keys w.
  - exists []. cbn. by rewrite app_nil_r.
  - cbn [scan_loop]. run_calls.
    destruct (redis_Scan c pattern 100 (remote w)) as [r1 [[ks c1] [e|]]]; cbn.
    + by exists [RedisScan c pattern 100].
    + destruct (c1 =? 0).
      * by exists [RedisScan c pattern 100].
      * destruct (IH c1 (keys ++ ks)
                    (World (local w) r1 (calls w ++ [RedisScan c pattern 100])))
          as (cs & -> & Hcs).
        exists (RedisScan c pattern 100 :: cs). cbn. by rewrite <- app_assoc.
Qed.

Lemma run_op_emits hc o w :
  ∃ cs, calls (final (run_op hc o w)) = calls w ++ cs ∧ emits hc w o cs.
Proof.
  destruct o as [key value | key value expiration | key | key | keys | fuel pattern | ]; cbn [run_op emits].
  - rewrite Set_run, SetWithTTL_run. by eexists.
  - rewrite SetWithTTL_run. by eexists.
  - destruct (cache_Get key (local w)) as [l1 [value [|]]] eqn:Elocal.
    + exists [CacheGet key]. split; last by left.
      destruct value as [b | tag].
      * erewrite bind_Returned; last by (apply Get_local_hit; rewrite Elocal).
        done.
      * unfold Get, GetFromInMemoryCache. run_calls. by rewrite Elocal.
    + destruct (redis_Get key (remote w)) as [r1 [data [e|]]] eqn:Eremote.
      * exists [CacheGet key; RedisGet key]. split; last by (right; left).
        erewrite bind_Returned;
          last by (eapply Get_both_miss; [rewrite Elocal | rewrite Eremote]).
        done.
      * eexists. split; last by (right; right; exists data).
        erewrite bind_Returned;
          last by (apply Get_remote_hit; [rewrite Elocal | rewrite Eremote]).
        done.
  - unfold Del, DelFromInMemoryCache, DelFromRedis. run_calls.
    eexists. split; last done. by rewrite <- app_assoc.
  - unfold DelMultipleKeysFromRedis. destruct keys as [|key keys]; cbn.
    + exists []. by rewrite app_nil_r.
    + run_calls. exists [RedisPipeline; PipeExec (fold_left pipe_Del keys [DelCmd key])].
      split; last done.
      destruct (redis_Exec _ (remote w)) as [r1 [e|]]; cbn; by rewrite <- app_assoc.
  - unfold DeleteKeysByPatternFromRedis.
    destruct (scan_loop_calls fuel pattern 0 [] w) as (cs & Ecs & Hcs).
    unfold mbind at 1, M_bind at 1. unfold mbind at 1, M_bind at 1.
    destruct (scan_loop fuel pattern 0 [] w) as [[keys | e] w1 | w1 | w1]; cbn in Ecs |- *;
      try by exists cs.
    destruct keys as [|key keys]; cbn; first by exists cs.
    run_calls. exists (cs ++ [RedisPipeline; PipeExec (fold_left pipe_Del keys [DelCmd key])]).
    split.
    + destruct (redis_Exec _ (remote w1)) as [r1 [e|]]; cbn;
        rewrite Ecs; by rewrite <- !app_assoc.
    + rewrite forallb_app, Hcs. done.
  - by exists [CacheClose].
Qed.

Lemma write_costs_redis cs : forallb is_redis cs = true → write_costs cs = [].
Proof.
  induction cs as [|c cs IH]; first done.
  cbn [forallb]. intros [Hc Hcs]%andb_prop.
  unfold write_costs in *. cbn [flat_map]. rewrite (IH Hcs). by destruct c.
Qed.


Lemma emits_cost_one hc w o cs :
  emits hc w o cs → Forall (λ cost, cost = 1) (write_costs cs).
Proof.
  destruct o; cbn [emits].
  - intros ->. cbn. by constructor.
  - intros ->. cbn. by constructor.
  - intros [-> | [-> | (data & _ & ->)]]; cbn; by repeat constructor.
  - intros ->. by cbn.
  - intros Hcs. by rewrite write_costs_redis.
  - intros Hcs. by rewrite write_costs_redis.
  - intros ->. by cbn.
Qed.

Lemma total_of_ones (costs : list Z) :
  Forall (λ cost, cost = 1) costs → total costs = Z.of_nat (length costs).
Proof.
  induction 1 as [|cost costs -> _ IH]; first done.
  cbn [total fold_right length]. fold (total costs). lia.
Qed.

Lemma run_ops_costs hc os :
  ∀ w, ∃ cs, calls (final (run_ops hc os w)) = calls w ++ cs
             ∧ Forall (λ cost, cost = 1) (write_costs cs).
Proof.
  induction os as [|o os IH]; intros w.
  - exists []. cbn. by rewrite app_nil_r.
  - destruct (run_op_emits hc o w) as (cs1 & E1 & H1%emits_cost_one).
    cbn [run_ops]. unfold mbind, M_bind.
    destruct (run_op hc o w) as [[] w1 | w1 | w1]; cbn in E1 |- *; try by exists cs1.
    destruct (IH w1) as (cs2 & E2 & H2).
    exists (cs1 ++ cs2). rewrite E2, E1, <- app_assoc. split; first done.
    unfold write_costs. rewrite flat_map_app. by apply Forall_app.
Qed.


(** C10.  Over any run of coordinator operations, with values of any
    length, every write to the local cache is charged cost 1; the cost
    charged in total is therefore the number of local writes, so a cost
    budget bounds how many entries are admitted, not how many bytes. *)
Theorem local_writes_cost_one hc os w :
  ∃ cs, calls (final (run_ops hc os w)) = calls w ++ cs
        ∧ Forall (λ cost, cost = 1) (write_costs cs)
        ∧ total (write_costs cs) = Z.of_nat (length (write_costs cs)).
Proof.
  destruct (run_ops_costs hc os w) as (cs & Ecs & Hcs).
  exists cs. split; first done. split; first done. by apply total_of_ones.
Qed.

End Invariants.

(** ** Key derivation *)

Section KeyDerivation.

Lemma Sum_length (data : list byte) : length (SHA256.Sum data) = 32%nat.
Proof.
  unfold SHA256.Sum.
  by destruct (SHA256.blocks _ _ _) as [[[[[[[h0 h1] h2] h3] h4] h5] h6] h7].
Qed.

Lemma EncodeToString_length (src : list byte) :
  String.length (Hex.EncodeToString src) = (2 * length src)%nat.
Proof. induction src as [|v src IH]; cbn; [done | rewrite IH; lia]. Qed.

Lemma digits_lower_hex (v : byte) :
  Hex.is_lower_hex (Hex.digit (Z.shiftr (Go.Z_of_byte v) 4)) = true
  ∧ Hex.is_lower_hex (Hex.digit (Z.land (Go.Z_of_byte v) 0x0f)) = true.
Proof. destruct v; vm_compute; done. Qed.

Lemma EncodeToString_lower_hex (src : list byte) :
  forallb Hex.is_lower_hex (list_ascii_of_string (Hex.EncodeToString src)) = true.
Proof.
  induction src as [|v src IH]; first done.
  destruct (digits_lower_hex v) as [Hhi Hlo].
  cbn [Hex.EncodeToString list_ascii_of_string forallb]. by rewrite Hhi, Hlo, IH.
Qed.

(** The model of SHA-256 on the vectors of FIPS 180-4 and on the input of
    [TestGetCacheKey]. *)
Example Sum_abc :
  Hex.EncodeToString (SHA256.Sum (Go.bytes_of_string "abc"))
  = "ba7816bf8f01cfea414140de5dae2223b00361a396177a9cb410ff61f20015ad"%string.
Proof. vm_compute. reflexivity. Qed.

Example Sum_empty :
  Hex.EncodeToString (SHA256.Sum [])
  = "e3b0c44298fc1c149afbf4c8996fb92427ae41e4649b934ca495991b7852b855"%string.
Proof. vm_compute. reflexivity. Qed.

Example Sum_two_blocks :
  Hex.EncodeToString (SHA256.Sum (Go.bytes_of_string
    "abcdbcdecdefdefgefghfghighijhijkijkljklmklmnlmnomnopnopq"))
  = "248d6a61d20638b8e5c026930c3e6039a33ce45964ff2167f6ecedd419db06c1"%string.
Proof. vm_compute. reflexivity. Qed.

Example GetCacheKey_some_data :
  GetCacheKey Mock.hc "some data"
  = "test:1307990e6ba5ca145eb35e99182a9bec46531bc54ddf656a602c780fa0240dee"%string.
Proof. vm_compute. reflexivity. Qed.

Example GetCacheKey_other_data :
  GetCacheKey Mock.hc "other data"
  = "test:873517954b8a3d8fd220525b1d20305e6e5cf87a7927b2debcc9391c6af606e9"%string.
Proof. vm_compute. reflexivity. Qed.

(** C6.  [GetCacheKey(data)] is the prefix, a colon, and the hexadecimal
    rendering of the SHA-256 of the bytes of [data]: 64 characters, each
    one of [0-9a-f].  It is pure: the key is a function of the prefix and
    [data] alone (it runs outside the monad of the two stores, and the other
    fields of the coordinator play no part), so the same input gives the
    same key.  The digest is SHA-256 itself: it gives the FIPS 180-4 vectors
    (empty, one block, two blocks), and the keys of ["some data"] and
    ["other data"] under the prefix ["test"] are the ones [sha256sum]
    gives. *)
Theorem GetCacheKey_format (hc : HybridCache) (data : string) :
  let digest := Hex.EncodeToString (SHA256.Sum (Go.bytes_of_string data)) in
  GetCacheKey hc data = (Prefix hc ++ ":" ++ digest)%string
  ∧ String.length digest = 64%nat
  ∧ forallb Hex.is_lower_hex (list_ascii_of_string digest) = true
  ∧ (∀ hc' data', Prefix hc' = Prefix hc → data' = data →
       GetCacheKey hc' data' = GetCacheKey hc data)
  ∧ Hex.EncodeToString (SHA256.Sum [])
    = "e3b0c44298fc1c149afbf4c8996fb92427ae41e4649b934ca495991b7852b855"%string
  ∧ Hex.EncodeToString (SHA256.Sum (Go.bytes_of_string "abc"))
    = "ba7816bf8f01cfea414140de5dae2223b00361a396177a9cb410ff61f20015ad"%string
  ∧ Hex.EncodeToString (SHA256.Sum (Go.bytes_of_string
      "abcdbcdecdefdefgefghfghighijhijkijkljklmklmnlmnomnopnopq"))
    = "248d6a61d20638b8e5c026930c3e6039a33ce45964ff2167f6ecedd419db06c1"%string
  ∧ GetCacheKey Mock.hc "some data"
    = "test:1307990e6ba5ca145eb35e99182a9bec46531bc54ddf656a602c780fa0240dee"%string
  ∧ GetCacheKey Mock.hc "other data"
    = "test:873517954b8a3d8fd220525b1d20305e6e5cf87a7927b2debcc9391c6af606e9"%string.
Proof.
  intros digest. split; first done. split.
  { unfold digest. by rewrite EncodeToString_length, Sum_length. }
  split; first by apply EncodeToString_lower_hex.
  split.
  { intros hc' data' Hprefix ->. unfold GetCacheKey. by rewrite Hprefix. }
  split; first by apply Sum_empty.
  split; first by apply Sum_abc.
  split; first by apply Sum_two_blocks.
  split; [apply GetCacheKey_some_data | apply GetCacheKey_other_data].
Qed.

End KeyDerivation.

(** ** The statements above on the test doubles *)

Section Witnesses.

Lemma Set_then_Get_witness :
  (∃ w', (Set_ Mock.hc Mock.testKey Mock.testValue ≫= λ _, Get Mock.hc Mock.testKey)
           (Mock.start (Mock.up ∅ 1)) = Returned (Mock.testValue, true) w')
  ∧ (∃ w', (Set_ Mock.hc Mock.testKey Mock.testValue ≫= λ _, Get Mock.hc Mock.testKey)
             (World () (Mock.up ∅ 1) []) = Returned (Mock.testValue, true) w')
  ∧ (∃ w', (Set_ Mock.hc Mock.testKey Mock.testValue ≫= λ _, Get Mock.hc Mock.testKey)
             (World () Mock.off []) = Returned ([], false) w').
Proof.
  split; [ | split].
  - apply (Set_then_Get Mock.hc Mock.testKey Mock.testValue (Mock.start (Mock.up ∅ 1))).
    left. vm_compute. reflexivity.
  - apply (Set_then_Get Mock.hc Mock.testKey Mock.testValue (World () (Mock.up ∅ 1) [])).
    right. split; vm_compute; reflexivity.
  - destruct (Set_then_Get Mock.hc Mock.testKey Mock.testValue (World () Mock.off []))
      as [_ Hlost].
    apply (Hlost Mock.refused); reflexivity.
Defined.

(** C1, as the claim has it, fails: with a local cache that drops the write
    and the server unreachable, [Set] then [Get] does not return
    [(value, true)]; it returns [(nil, false)]. *)
Lemma Set_then_Get_both_tiers_lost :
  ¬ ∃ w', (Set_ Mock.hc Mock.testKey Mock.testValue ≫= λ _, Get Mock.hc Mock.testKey)
            (World () Mock.off []) = Returned (Mock.testValue, true) w'.
Proof. intros [w' Eget]. vm_compute in Eget. discriminate Eget. Qed.

Lemma Get_promotes_witness :
  (∃ w', Get Mock.hc "k2" (World {["k2" := Go.Bytes Mock.v2]} Mock.off [])
         = Returned (Mock.v2, true) w'
         ∧ calls w' = [CacheGet "k2"]
         ∧ remote w' = Mock.off)
  ∧ (∃ w', Get Mock.hc "k2" (Mock.start (Mock.up {["k2" := "v2"%string]} 1))
           = Returned (Mock.v2, true) w'
           ∧ calls w' = [CacheGet "k2"; RedisGet "k2";
                         CacheSetWithTTL "k2" (Go.Bytes Mock.v2) 1 300000000000;
                         CacheWait]
           ∧ ∃ w'', GetFromInMemoryCache Mock.hc "k2" w' = Returned (Mock.v2, true) w'')
  ∧ (∃ w', Get Mock.hc "k2" (World () (Mock.up {["k2" := "v2"%string]} 1) [])
           = Returned (Mock.v2, true) w'
           ∧ ∃ w'', GetFromInMemoryCache Mock.hc "k2" w' = Returned ([], false) w'').
Proof.
  split; [ | split].
  - apply (Get_promotes Mock.hc "k2" (World {["k2" := Go.Bytes Mock.v2]} Mock.off [])).
    vm_compute. reflexivity.
  - destruct (Get_promotes Mock.hc "k2" (Mock.start (Mock.up {["k2" := "v2"%string]} 1)))
      as [_ Hmiss].
    destruct (Hmiss "v2"%string) as (w' & Eget & Ecalls & Hlocal & _);
      [vm_compute; reflexivity | vm_compute; reflexivity | ].
    exists w'. split; [exact Eget | ]. split; [exact Ecalls | ].
    apply Hlocal. vm_compute. reflexivity.
  - destruct (Get_promotes Mock.hc "k2" (World () (Mock.up {["k2" := "v2"%string]} 1) []))
      as [_ Hmiss].
    destruct (Hmiss "v2"%string) as (w' & Eget & _ & _ & Hdropped);
      [vm_compute; reflexivity | vm_compute; reflexivity | ].
    exists w'. split; [exact Eget | ]. apply Hdropped. reflexivity.
Defined.

(** C2, as the claim has it, fails in its last part: with a local cache that
    drops the promoted value, [Get] returns [(value, true)] from the remote
    store and the local lookup right after still misses. *)
Lemma Get_promotion_dropped :
  ¬ ∀ w', Get Mock.hc "k2" (World () (Mock.up {["k2" := "v2"%string]} 1) [])
          = Returned (Mock.v2, true) w' →
          ∃ w'', GetFromInMemoryCache Mock.hc "k2" w' = Returned (Mock.v2, true) w''.
Proof.
  intros Hpromoted.
  destruct (Hpromoted _ eq_refl) as [w'' Elocal].
  vm_compute in Elocal. discriminate Elocal.
Qed.

Lemma DeleteKeysByPattern_scans_then_deletes_witness :
  DeleteKeysByPatternFromRedis 4 Mock.hc "p:*" (Mock.start Mock.paged)
  = Returned None
      (World ∅ (Mock.up (list_to_map [("q:1", "c"); ("r:1", "d")]%string) 1)
             [RedisScan 0 "p:*" 100; RedisScan 1 "p:*" 100;
              RedisScan 2 "p:*" 100; RedisScan 3 "p:*" 100;
              RedisPipeline; PipeExec [DelCmd "p:1"; DelCmd "p:2"]]).
Proof.
  rewrite (DeleteKeysByPattern_scans_then_deletes Mock.hc "p:*" (Mock.start Mock.paged)
             [(0, []); (1, []); (2, ["p:1"%string])] 3 Mock.paged Mock.paged
             ["p:2"%string] 4).
  - vm_compute. reflexivity.
  - repeat (eapply scanned_cons; [vm_compute; reflexivity | discriminate | ]).
    apply scanned_nil.
  - vm_compute. reflexivity.
  - cbn. lia.
Defined.

Lemma DeleteKeysByPattern_scan_error_witness :
  ∃ w', DeleteKeysByPatternFromRedis 4 Mock.hc "p:*" (Mock.start Mock.faulty)
        = Returned (Some (Go.Failure "scan interrupted")) w'
        ∧ calls w' = [RedisScan 0 "p:*" 100; RedisScan 1 "p:*" 100;
                      RedisScan 2 "p:*" 100; RedisScan 3 "p:*" 100]
        ∧ remote w' = Mock.faulty.
Proof.
  destruct (DeleteKeysByPattern_scan_error Mock.hc "p:*" (Mock.start Mock.faulty)
              [(0, []); (1, []); (2, ["p:1"%string])] 3 Mock.faulty Mock.faulty
              [] 0 (Go.Failure "scan interrupted") 4)
    as (w' & Erun & Ecalls & _ & _ & Eremote & _).
  - repeat (eapply scanned_cons; [vm_compute; reflexivity | discriminate | ]).
    apply scanned_nil.
  - vm_compute. reflexivity.
  - cbn. lia.
  - exists w'. split; [exact Erun | ]. split; [exact Ecalls | exact Eremote].
Defined.

Lemma GetCacheKey_format_witness :
  GetCacheKey {| Prefix := "test"; ExpiresInMemory := 1; ExpiresRedis := 2 |} "some data"
  = "test:1307990e6ba5ca145eb35e99182a9bec46531bc54ddf656a602c780fa0240dee"%string.
Proof.
  destruct (GetCacheKey_format Mock.hc "some data")
    as (_ & _ & _ & Hpure & _ & _ & _ & Hkey & _).
  rewrite (Hpure {| Prefix := "test"; ExpiresInMemory := 1; ExpiresRedis := 2 |}
             "some data"%string eq_refl eq_refl).
  exact Hkey.
Defined.

Lemma GetFromRedis_error_is_miss_witness :
  (redis_Get Mock.testKey Mock.off).2.2 = Some Mock.refused
  ∧ ∃ w', GetFromRedis Mock.hc Mock.testKey (Mock.start Mock.off) = Returned ([], false) w'
          ∧ calls w' = [RedisGet Mock.testKey].
Proof.
  split; [reflexivity | ].
  apply (GetFromRedis_error_is_miss Mock.hc Mock.testKey (Mock.start Mock.off) Mock.refused).
  reflexivity.
Defined.

(** C7, as the claim has it, fails: with the server unreachable and with
    the key merely absent, [GetFromRedis] returns the same [(nil, false)];
    the failure is not told apart from the miss. *)
Lemma GetFromRedis_failure_not_surfaced :
  ¬ (∀ (failed absent : world (gmap string Go.any) Mock.Server) (key : string),
       (redis_Get key (remote failed)).2.2 = Some Mock.refused →
       (redis_Get key (remote absent)).2.2 = Some Go.Nil →
       returned (GetFromRedis Mock.hc key failed)
       ≠ returned (GetFromRedis Mock.hc key absent)).
Proof.
  intros Hdistinct.
  apply (Hdistinct (Mock.start Mock.off) (Mock.start (Mock.up ∅ 1)) Mock.testKey);
    reflexivity.
Qed.

End Witnesses.

(** * Further properties of the coordinator *)

(** ** Misses, panics and repeated reads *)

Section Reads.

Context {L R : Type} `{!LocalStore L, !RemoteStore R}.
Implicit Types (hc : HybridCache) (w : world L R) (key : string).

(** A miss is never cached.  When the local tier misses and the remote [Get]
    replies with an error, of whatever kind, [Get] returns [(nil, false)]
    after the two lookups and writes nothing; a second [Get] that misses
    locally asks the remote store again. *)
Theorem Get_miss_not_cached hc key w e :
  (cache_Get key (local w)).2.2 = false →
  (redis_Get key (remote w)).2.2 = Some e →
  ∃ w', Get hc key w = Returned ([], false) w'
        ∧ calls w' = calls w ++ [CacheGet key; RedisGet key]
        ∧ local w' = (cache_Get key (local w)).1
        ∧ remote w' = (redis_Get key (remote w)).1
        ∧ ∀ e', (cache_Get key (local w')).2.2 = false →
                (redis_Get key (remote w')).2.2 = Some e' →
                ∃ w'', Get hc key w' = Returned ([], false) w''
                       ∧ calls w'' = calls w ++ [CacheGet key; RedisGet key;
                                                 CacheGet key; RedisGet key].
Proof.
  intros Emiss Eerr. eexists. split; first by eapply Get_both_miss.
  do 3 (split; first done).
  intros e' Emiss' Eerr'. eexists. split; first by eapply Get_both_miss.
  cbn. by rewrite <- app_assoc.
Qed.

(** The type assertion of [GetFromInMemoryCache] is unguarded: when the local
    cache holds, under the key, a value that is not a byte slice, both
    [GetFromInMemoryCache] and [Get] panic right after the local lookup, and
    the remote store is not asked. *)
Theorem Get_panics_on_foreign_value hc key w tag :
  (cache_Get key (local w)).2 = (Go.Other tag, true) →
  ∃ w', GetFromInMemoryCache hc key w = Panicked w'
        ∧ Get hc key w = Panicked w'
        ∧ calls w' = calls w ++ [CacheGet key]
        ∧ remote w' = remote w.
Proof.
  intros E. destruct (Get_foreign_value hc key w tag E) as [Hlocal Hget].
  eexists. split; first exact Hlocal. split; first exact Hget. done.
Qed.

(** Promotion pays off: after a [Get] served by the remote store, with the
    local tier admitting the promoted value, the next [Get] of the key is
    served by the local tier alone, with the same bytes and no remote call. *)
Theorem Get_after_promotion_is_local hc key w data :
  (cache_Get key (local w)).2.2 = false →
  (redis_Get key (remote w)).2 = (data, None) →
  admits (cache_Get key (local w)).1 key (Go.Bytes (Go.bytes_of_string data))
    (ExpiresInMemory hc) →
  ∃ w' w'', Get hc key w = Returned (Go.bytes_of_string data, true) w'
            ∧ Get hc key w' = Returned (Go.bytes_of_string data, true) w''
            ∧ calls w'' = calls w' ++ [CacheGet key]
            ∧ remote w'' = remote w'.
Proof.
  intros Emiss Ehit Hadmit. eexists. eexists.
  split; first by apply Get_remote_hit.
  split; first by apply Get_local_hit. done.
Qed.

(** After [Set], each tier read on its own returns the value (the checks of
    [TestSetAndGet]): [GetFromInMemoryCache] when the local tier admits the
    write, [GetFromRedis] when the remote store replies with what was set.
    [GetFromRedis] makes the one remote call and leaves the local tier as it
    is: it does not promote. *)
Theorem Set_then_each_tier hc key value w :
  ∃ w1, Set_ hc key value w = Returned () w1
        ∧ (admits (local w) key (Go.Bytes value) (ExpiresInMemory hc) →
           ∃ w2, GetFromInMemoryCache hc key w1 = Returned (value, true) w2
                 ∧ remote w2 = remote w1)
        ∧ ((redis_Get key (redis_Set key value (ExpiresRedis hc) (remote w)).1).2
           = (Go.string_of_bytes value, None) →
           ∃ w2, GetFromRedis hc key w1 = Returned (value, true) w2
                 ∧ local w2 = local w1
                 ∧ calls w2 = calls w1 ++ [RedisGet key]).
Proof.
  eexists. split; first by (rewrite Set_run; apply SetWithTTL_run).
  split.
  - intros Hadmit. eexists. split; first by apply GetFromInMemoryCache_hit. done.
  - intros Hkept. eexists. split.
    + erewrite GetFromRedis_hit; last done. by rewrite bytes_of_string_of_bytes.
    + done.
Qed.

(** [SetWithTTL] followed at once by [Get] returns the value, as [Set] does,
    whenever the local tier admits the write. *)
Theorem SetWithTTL_then_Get hc key value expiration w :
  admits (local w) key (Go.Bytes value) (ExpiresInMemory hc) →
  ∃ w', (SetWithTTL hc key value expiration ≫= λ _, Get hc key) w
        = Returned (value, true) w'
        ∧ calls w' = calls w ++ [CacheSetWithTTL key (Go.Bytes value) 1 (ExpiresInMemory hc);
                                 CacheWait; RedisSet key value expiration; CacheGet key].
Proof.
  intros Hadmit.
  erewrite bind_Returned; last by apply SetWithTTL_run.
  eexists. split; first by apply Get_local_hit.
  cbn. by rewrite <- app_assoc.
Qed.

(** [Set] does not report what the remote store did with the write.  When
    the key cannot be read from the remote store after [Set] (the write
    failed there), [Set] has still returned as usual; the local tier, if it
    admits the write, serves the value to [Get], while [GetFromRedis] misses:
    the tiers disagree and the caller is not told. *)
Theorem Set_hides_remote_failure hc key value w e :
  (redis_Get key (redis_Set key value (ExpiresRedis hc) (remote w)).1).2.2 = Some e →
  admits (local w) key (Go.Bytes value) (ExpiresInMemory hc) →
  ∃ w1 w2 w3, Set_ hc key value w = Returned () w1
              ∧ Get hc key w1 = Returned (value, true) w2
              ∧ GetFromRedis hc key w1 = Returned ([], false) w3.
Proof.
  intros Egone Hadmit. eexists. eexists. eexists.
  split; first by (rewrite Set_run; apply SetWithTTL_run).
  split; first by apply Get_local_hit.
  by eapply GetFromRedis_err.
Qed.

(** [SetInMemoryCache] on its own writes the local tier only: it makes the
    two local calls, no remote call, and leaves the remote store as it was.
    When the local tier admits the write, a [Get] right after is served by
    the local tier without the remote store being asked. *)
Theorem SetInMemoryCache_then_Get hc key value w :
  ∃ w1, SetInMemoryCache hc key value w = Returned () w1
        ∧ calls w1 = calls w ++ [CacheSetWithTTL key (Go.Bytes value) 1 (ExpiresInMemory hc);
                                 CacheWait]
        ∧ remote w1 = remote w
        ∧ (admits (local w) key (Go.Bytes value) (ExpiresInMemory hc) →
           ∃ w', Get hc key w1 = Returned (value, true) w'
                 ∧ calls w' = calls w1 ++ [CacheGet key]
                 ∧ remote w' = remote w).
Proof.
  eexists. split; first by apply SetInMemoryCache_run.
  split; first done. split; first done.
  intros Hadmit. eexists. split; first by apply Get_local_hit. done.
Qed.

(** [Close] releases the local cache and nothing else, and the coordinator
    keeps no record of it: a [Set] after [Close] makes the same calls as
    before, and still writes the remote store. *)
Theorem Set_after_Close hc key value w :
  ∃ w', (Close hc ≫= λ _, Set_ hc key value) w = Returned () w'
        ∧ calls w' = calls w ++ [CacheClose;
                                 CacheSetWithTTL key (Go.Bytes value) 1 (ExpiresInMemory hc);
                                 CacheWait;
                                 RedisSet key value (ExpiresRedis hc)]
        ∧ remote w' = (redis_Set key value (ExpiresRedis hc) (remote w)).1.
Proof.
  assert (Close hc w = Returned () (World (cache_Close (local w)) (remote w)
                                          (calls w ++ [CacheClose]))) as Eclose by done.
  erewrite bind_Returned; last exact Eclose.
  rewrite Set_run, SetWithTTL_run. eexists. split; first done.
  cbn. by rewrite <- app_assoc.
Qed.

End Reads.

(** ** Deletes *)

Section Deletes.

Context {L R : Type} `{!LocalStore L, !RemoteStore R}.
Implicit Types (hc : HybridCache) (w : world L R) (key : string).

Lemma Del_run hc key w :
  Del hc key w =
  Returned ()
    (World (cache_Del key (local w)) (redis_Del key (remote w)).1
           (calls w ++ [CacheDel key; RedisDel key])).
Proof.
  unfold Del, DelFromInMemoryCache, DelFromRedis. run_calls. by rewrite <- app_assoc.
Qed.

Lemma DelFromInMemoryCache_run hc key w :
  DelFromInMemoryCache hc key w =
  Returned () (World (cache_Del key (local w)) (remote w) (calls w ++ [CacheDel key])).
Proof. reflexivity. Qed.

(** [Del] then any read misses (the checks of [TestDelete]), when each store
    honours its delete: after [Del] on the local cache a [Get] there misses,
    and after [Del] on the remote store a [Get] there replies with an error.
    [Del] deletes locally first, then remotely, and returns nothing. *)
Theorem Del_then_reads_miss hc key w e :
  (cache_Get key (cache_Del key (local w))).2.2 = false →
  (redis_Get key (redis_Del key (remote w)).1).2.2 = Some e →
  ∃ w1, Del hc key w = Returned () w1
        ∧ calls w1 = calls w ++ [CacheDel key; RedisDel key]
        ∧ (∃ w2, GetFromInMemoryCache hc key w1 = Returned ([], false) w2)
        ∧ (∃ w2, GetFromRedis hc key w1 = Returned ([], false) w2)
        ∧ (∃ w2, Get hc key w1 = Returned ([], false) w2).
Proof.
  intros Elocal Eremote. eexists. split; first by apply Del_run.
  split; first done.
  split; first by (eexists; apply GetFromInMemoryCache_miss).
  split; first by (eexists; eapply GetFromRedis_err).
  eexists. by eapply Get_both_miss.
Qed.

(** A delete that the remote store did not carry out is undone by the next
    read.  [Del] drops the reply of the remote delete, and
    [DelFromInMemoryCache] never asks for one; in both cases, when the remote
    store still replies with the value, the next [Get] returns it and writes
    it back into the local tier. *)
Theorem Del_undone_by_remote_value hc key w data :
  (cache_Get key (cache_Del key (local w))).2.2 = false →
  let value := Go.bytes_of_string data in
  let promoted := [CacheGet key; RedisGet key;
                   CacheSetWithTTL key (Go.Bytes value) 1 (ExpiresInMemory hc);
                   CacheWait] in
  ((redis_Get key (redis_Del key (remote w)).1).2 = (data, None) →
   ∃ w', (Del hc key ≫= λ _, Get hc key) w = Returned (value, true) w'
         ∧ calls w' = calls w ++ [CacheDel key; RedisDel key] ++ promoted)
  ∧ ((redis_Get key (remote w)).2 = (data, None) →
     ∃ w', (DelFromInMemoryCache hc key ≫= λ _, Get hc key) w = Returned (value, true) w'
           ∧ calls w' = calls w ++ [CacheDel key] ++ promoted).
Proof.
  intros Elocal value promoted. split; intros Eremote.
  - erewrite bind_Returned; last by apply Del_run.
    eexists. split; first by apply Get_remote_hit.
    cbn. by rewrite <- app_assoc.
  - erewrite bind_Returned; last by apply DelFromInMemoryCache_run.
    eexists. split; first by apply Get_remote_hit.
    cbn. by rewrite <- app_assoc.
Qed.

Lemma scan_loop_frame fuel pattern :
  ∀ c keys w, local (final (scan_loop fuel pattern c keys w)) = local w.
Proof.
  induction fuel as [|fuel IH]; intros c keys w; first done.
  cbn [scan_loop]. run_calls.
  destruct (redis_Scan c pattern 100 (remote w)) as [r1 [[ks c1] [e|]]]; cbn; first done.
  destruct (c1 =? 0); first done.
  by rewrite IH.
Qed.

Lemma DelMultipleKeysFromRedis_frame hc keys w :
  ∃ err w', DelMultipleKeysFromRedis hc keys w = Returned err w' ∧ local w' = local w.
Proof.
  unfold DelMultipleKeysFromRedis. destruct keys as [|k keys]; cbn [length Nat.eqb].
  - by eexists _, _.
  - run_calls. destruct (redis_Exec _ (remote w)) as [r1 [e|]]; by eexists _, _.
Qed.

Lemma DeleteKeysByPatternFromRedis_frame fuel hc pattern w :
  local (final (DeleteKeysByPatternFromRedis fuel hc pattern w)) = local w.
Proof.
  unfold DeleteKeysByPatternFromRedis.
  pose proof (scan_loop_frame fuel pattern 0 [] w) as Hloop.
  unfold mbind at 1, M_bind at 1.
  destruct (scan_loop fuel pattern 0 [] w) as [[keys | e] w1 | w1 | w1]; cbn in Hloop |- *;
    try done.
  destruct keys as [|k keys]; cbn [length Nat.eqb]; first done.
  run_calls. by destruct (redis_Exec _ (remote w1)) as [r1 [e|]].
Qed.

(** The batch and pattern deletes act on the remote store only.  However
    they end, they leave the local tier as it was, so a key that is cached
    locally is still returned by the next [Get], deleted remotely or not. *)
Theorem remote_deletes_keep_local hc key keys fuel pattern w b :
  (cache_Get key (local w)).2 = (Go.Bytes b, true) →
  local (final (DeleteKeysByPatternFromRedis fuel hc pattern w)) = local w
  ∧ (∃ w', (DelMultipleKeysFromRedis hc keys ≫= λ _, Get hc key) w = Returned (b, true) w')
  ∧ (∀ err w1, DeleteKeysByPatternFromRedis fuel hc pattern w = Returned err w1 →
       ∃ w', Get hc key w1 = Returned (b, true) w').
Proof.
  intros Ehit. split; first by apply DeleteKeysByPatternFromRedis_frame.
  split.
  - destruct (DelMultipleKeysFromRedis_frame hc keys w) as (err & w1 & Erun & Hlocal).
    erewrite bind_Returned; last exact Erun.
    eexists. apply Get_local_hit. by rewrite Hlocal.
  - intros err w1 Erun.
    pose proof (DeleteKeysByPatternFromRedis_frame fuel hc pattern w) as Hlocal.
    rewrite Erun in Hlocal. cbn in Hlocal.
    eexists. apply Get_local_hit. by rewrite Hlocal.
Qed.

Lemma scan_loop_spins_calls fuel pattern :
  (∀ c r, (redis_Scan c pattern 100 r).2.2 = None ∧ (redis_Scan c pattern 100 r).2.1.2 ≠ 0) →
  ∀ c keys w, ∃ w' cs,
    scan_loop fuel pattern c keys w = Spinning w'
    ∧ calls w' = calls w ++ cs
    ∧ length cs = fuel
    ∧ forallb is_scan cs = true.
Proof.
  intros Hmore. induction fuel as [|fuel IH]; intros c keys w.
  - exists w, []. cbn. by rewrite app_nil_r.
  - destruct (redis_Scan c pattern 100 (remote w)) as [r1 [[ks c1] err]] eqn:E.
    destruct (Hmore c (remote w)) as [Herr Hc1]. rewrite E in Herr, Hc1. cbn in Herr, Hc1.
    subst err. destruct w as [l r cs0]. cbn in E.
    rewrite (scan_loop_more _ _ _ _ _ _ _ _ _ _ E Hc1).
    destruct (IH c1 (keys ++ ks) (World l r1 (cs0 ++ [RedisScan c pattern 100])))
      as (w' & cs & -> & Ecs & Hlen & Hscans).
    exists w', (RedisScan c pattern 100 :: cs). cbn in Ecs |- *.
    rewrite Ecs, <- app_assoc, Hlen. done.
Qed.

(** The loop of [DeleteKeysByPatternFromRedis] has no bound of its own.
    Against a store that answers every scan without error and never with
    cursor 0, it is still scanning after any number of iterations: one scan
    per iteration, and no delete sent. *)
Theorem DeleteKeysByPattern_never_completes hc pattern w fuel :
  (∀ c r, (redis_Scan c pattern 100 r).2.2 = None ∧ (redis_Scan c pattern 100 r).2.1.2 ≠ 0) →
  ∃ w' cs, DeleteKeysByPatternFromRedis fuel hc pattern w = Spinning w'
           ∧ calls w' = calls w ++ cs
           ∧ length cs = fuel
           ∧ forallb is_scan cs = true.
Proof.
  intros Hmore.
  destruct (scan_loop_spins_calls fuel pattern Hmore 0 [] w) as (w' & cs & Erun & Hcs).
  exists w', cs. split; last done.
  unfold DeleteKeysByPatternFromRedis. by rewrite (bind_Spinning _ _ _ _ Erun).
Qed.

End Deletes.

(** ** What a read may do to the stores *)

Section ReadOnly.

Context {L R : Type} `{!LocalStore L, !RemoteStore R}.
Implicit Types (hc : HybridCache) (w : world L R) (key : string).

(** [Get] never writes to the remote store.  However it ends, its calls are
    lookups of the key and, at most, the promotion into the local tier; the
    remote store is left as it was or as its own [Get] leaves it. *)
Theorem Get_never_writes_remote hc key w :
  ∃ cs, calls (final (Get hc key w)) = calls w ++ cs
        ∧ Forall (read_call hc key) cs
        ∧ (remote (final (Get hc key w)) = remote w
           ∨ remote (final (Get hc key w)) = (redis_Get key (remote w)).1).
Proof.
  assert (∀ c, c = CacheGet key ∨ c = RedisGet key ∨ c = CacheWait
               ∨ (∃ b, c = CacheSetWithTTL key (Go.Bytes b) 1 (ExpiresInMemory hc)) →
               read_call hc key c) as Hread by done.
  destruct (cache_Get key (local w)) as [l1 [value [|]]] eqn:Elocal.
  - exists [CacheGet key]. destruct value as [b | tag].
    + rewrite (Get_local_hit hc key w b) by (by rewrite Elocal). cbn.
      split; first done. split; last by left.
      apply List.Forall_cons; last done. apply Hread. by left.
    + destruct (Get_foreign_value hc key w tag) as [_ ->]; first by rewrite Elocal.
      cbn. split; first done. split; last by left.
      apply List.Forall_cons; last done. apply Hread. by left.
  - destruct (redis_Get key (remote w)) as [r1 [data [e|]]] eqn:Eremote.
    + exists [CacheGet key; RedisGet key].
      rewrite (Get_both_miss hc key w e) by (by rewrite ?Elocal, ?Eremote). cbn.
      split; first done. split; last by (right; rewrite Eremote).
      apply List.Forall_cons; first by (apply Hread; left).
      apply List.Forall_cons; last done. apply Hread. right. by left.
    + eexists.
      rewrite (Get_remote_hit hc key w data) by (by rewrite ?Elocal, ?Eremote). cbn.
      split; first done. split; last by (right; rewrite Eremote).
      apply List.Forall_cons; first by (apply Hread; left).
      apply List.Forall_cons; first by (apply Hread; right; left).
      apply List.Forall_cons; first by (apply Hread; right; right; right; eexists).
      apply List.Forall_cons; last done. apply Hread. right. right. by left.
Qed.

End ReadOnly.

(** ** Keys *)

Section Keys.

Lemma append_cons (c : ascii) (s t : string) :
  (String c s ++ t)%string = String c (s ++ t).
Proof. reflexivity. Qed.

Lemma append_nil (t : string) : (EmptyString ++ t)%string = t.
Proof. reflexivity. Qed.

Lemma length_append (s t : string) :
  String.length (s ++ t) = (String.length s + String.length t)%nat.
Proof.
  induction s as [|c s IH]; first done.
  rewrite append_cons. cbn [String.length]. by rewrite IH.
Qed.

Lemma append_assoc (s t u : string) : ((s ++ t) ++ u = s ++ t ++ u)%string.
Proof.
  induction s as [|c s IH]; first done.
  rewrite !append_cons. by rewrite IH.
Qed.

Lemma append_inj (s1 s2 t1 t2 : string) :
  String.length s1 = String.length s2 →
  (s1 ++ t1 = s2 ++ t2)%string → s1 = s2 ∧ t1 = t2.
Proof.
  revert s2. induction s1 as [|c s1 IH]; intros [|d s2]; try done.
  rewrite !append_cons. cbn [String.length].
  intros [= Hlen] [= -> Happ]. destruct (IH s2 Hlen Happ) as [-> ->]. done.
Qed.

Lemma prefix_append (s t : string) : String.prefix s (s ++ t) = true.
Proof.
  induction s as [|c s IH]; first by (rewrite append_nil; destruct t).
  rewrite append_cons. cbn [String.prefix]. by destruct (ascii_dec c c).
Qed.

Lemma byte_of_hex_digits (v : byte) :
  byte_of_hex (Hex.digit (Z.shiftr (Go.Z_of_byte v) 4))
              (Hex.digit (Z.land (Go.Z_of_byte v) 0x0f)) = v.
Proof. destruct v; vm_compute; done. Qed.

Lemma EncodeToString_inj (src1 src2 : list byte) :
  Hex.EncodeToString src1 = Hex.EncodeToString src2 → src1 = src2.
Proof.
  revert src2. induction src1 as [|v1 src1 IH]; intros [|v2 src2]; cbn; try done.
  intros [= Hhi Hlo Hrest]. f_equal; last by apply IH.
  rewrite <- (byte_of_hex_digits v1), <- (byte_of_hex_digits v2).
  by rewrite Hhi, Hlo.
Qed.

Lemma digest_length (data : string) :
  String.length (Hex.EncodeToString (SHA256.Sum (Go.bytes_of_string data))) = 64%nat.
Proof. by rewrite EncodeToString_length, Sum_length. Qed.

(** A key is its prefix, a colon and 64 more characters, whatever the length
    of [data]: it is 65 characters longer than the prefix and starts with the
    prefix and the colon (the checks of [TestGetCacheKey]). *)
Theorem GetCacheKey_length_prefix (hc : HybridCache) (data : string) :
  String.length (GetCacheKey hc data) = (String.length (Prefix hc) + 65)%nat
  ∧ String.prefix (Prefix hc ++ ":") (GetCacheKey hc data) = true
  ∧ (String.length (Prefix hc ++ ":") < String.length (GetCacheKey hc data))%nat.
Proof.
  unfold GetCacheKey.
  assert (String.length (Prefix hc ++ ":" ++ Hex.EncodeToString
            (SHA256.Sum (Go.bytes_of_string data)))
          = (String.length (Prefix hc) + 65)%nat) as Hlen.
  { rewrite !length_append, digest_length. cbn [String.length]. lia. }
  split; first done. split.
  - rewrite <- append_assoc. apply prefix_append.
  - rewrite Hlen, length_append. cbn [String.length]. lia.
Qed.

(** Two keys are equal only when they come from the same prefix and from
    data with the same SHA-256: coordinators with different prefixes never
    produce the same key, and under one prefix keys collide only where the
    digests do. *)
Theorem GetCacheKey_injective (hc1 hc2 : HybridCache) (data1 data2 : string) :
  GetCacheKey hc1 data1 = GetCacheKey hc2 data2 →
  Prefix hc1 = Prefix hc2
  ∧ SHA256.Sum (Go.bytes_of_string data1) = SHA256.Sum (Go.bytes_of_string data2).
Proof.
  unfold GetCacheKey. intros Hkeys.
  assert (String.length (Prefix hc1) = String.length (Prefix hc2)) as Hlen.
  { apply (f_equal String.length) in Hkeys.
    rewrite !length_append, !digest_length in Hkeys. lia. }
  destruct (append_inj _ _ _ _ Hlen Hkeys) as [Hprefix Hrest].
  rewrite !append_cons, !append_nil in Hrest. injection Hrest as Hdigest.
  split; first done. by apply EncodeToString_inj.
Qed.

End Keys.

(** ** The constructor *)

Section Constructor.

(** The configuration [NewHybridCache] hands to the engine, for any [int64]
    budget in the option: [MaxCost] is never 0 (an unset budget becomes 100,
    any other value, negative ones included, is passed on as it is);
    [BufferItems] is 64; [NumCounters] is ten times [MaxCost] as long as that
    fits [int64], and it wraps to 0 for the one budget [- 2 ^ 63]. *)
Theorem NewHybridCache_Config_budget (option : HybridCacheOption.t) :
  is_int64 (HybridCacheOption.MaxCost option) →
  let config := NewHybridCache_Config option in
  Ristretto.MaxCost config ≠ 0
  ∧ (HybridCacheOption.MaxCost option = 0 → Ristretto.MaxCost config = 100)
  ∧ (HybridCacheOption.MaxCost option ≠ 0 →
     Ristretto.MaxCost config = HybridCacheOption.MaxCost option)
  ∧ Ristretto.BufferItems config = 64
  ∧ (is_int64 (10 * Ristretto.MaxCost config) →
     Ristretto.NumCounters config = 10 * Ristretto.MaxCost config)
  ∧ (Ristretto.NumCounters config = 0 ↔ HybridCacheOption.MaxCost option = - 2 ^ 63).
Proof.
  unfold is_int64, NewHybridCache_Config, int64. intros Hrange. cbn.
  destruct (Z.eqb_spec (HybridCacheOption.MaxCost option) 0) as [-> | Hne].
  - repeat split; try done; try lia.
  - set (m := HybridCacheOption.MaxCost option) in *.
    repeat split; try done; try lia.
    all: try (intros Hfit; Z.div_mod_to_equations; lia).
Qed.

End Constructor.

(** ** The further properties on the test doubles *)

Section MoreWitnesses.

Lemma Get_miss_not_cached_witness :
  ∃ w', Get Mock.hc Mock.testKey (Mock.start Mock.off) = Returned ([], false) w'
        ∧ calls w' = [CacheGet Mock.testKey; RedisGet Mock.testKey].
Proof.
  destruct (Get_miss_not_cached Mock.hc Mock.testKey (Mock.start Mock.off) Mock.refused)
    as (w' & Eget & Ecalls & _); [reflexivity | reflexivity | ].
  exists w'. split; [exact Eget | exact Ecalls].
Defined.

Lemma Get_panics_on_foreign_value_witness :
  ∃ w', Get Mock.hc Mock.testKey Worlds.foreign = Panicked w'
        ∧ calls w' = [CacheGet Mock.testKey].
Proof.
  destruct (Get_panics_on_foreign_value Mock.hc Mock.testKey Worlds.foreign "string")
    as (w' & _ & Eget & Ecalls & _); [vm_compute; reflexivity | ].
  exists w'. split; [exact Eget | exact Ecalls].
Defined.

Lemma Get_after_promotion_is_local_witness :
  ∃ w' w'', Get Mock.hc "k2" (Mock.start (Mock.up {["k2" := "v2"%string]} 1))
            = Returned (Mock.v2, true) w'
            ∧ Get Mock.hc "k2" w' = Returned (Mock.v2, true) w''
            ∧ calls w'' = calls w' ++ [CacheGet "k2"]
            ∧ remote w'' = remote w'.
Proof.
  apply (Get_after_promotion_is_local Mock.hc "k2"
           (Mock.start (Mock.up {["k2" := "v2"%string]} 1)) "v2");
    vm_compute; reflexivity.
Defined.

Lemma Set_then_each_tier_witness :
  ∃ w1, Set_ Mock.hc Mock.testKey Mock.testValue (Mock.start (Mock.up ∅ 1)) = Returned () w1
        ∧ (∃ w2, GetFromInMemoryCache Mock.hc Mock.testKey w1
                 = Returned (Mock.testValue, true) w2)
        ∧ (∃ w2, GetFromRedis Mock.hc Mock.testKey w1 = Returned (Mock.testValue, true) w2
                 ∧ local w2 = local w1).
Proof.
  destruct (Set_then_each_tier Mock.hc Mock.testKey Mock.testValue (Mock.start (Mock.up ∅ 1)))
    as (w1 & Eset & Hlocal & Hremote).
  exists w1. split; [exact Eset | ]. split.
  - destruct Hlocal as (w2 & Eget & _); [vm_compute; reflexivity | ]. by exists w2.
  - destruct Hremote as (w2 & Eget & Eframe & _); [vm_compute; reflexivity | ]. by exists w2.
Defined.

Lemma SetWithTTL_then_Get_witness :
  ∃ w', (SetWithTTL Mock.hc Mock.testKey Mock.testValue 1000000 ≫= λ _, Get Mock.hc Mock.testKey)
          (Mock.start (Mock.up ∅ 1))
        = Returned (Mock.testValue, true) w'
        ∧ calls w' = [CacheSetWithTTL Mock.testKey (Go.Bytes Mock.testValue) 1 300000000000;
                      CacheWait; RedisSet Mock.testKey Mock.testValue 1000000;
                      CacheGet Mock.testKey].
Proof.
  apply (SetWithTTL_then_Get Mock.hc Mock.testKey Mock.testValue 1000000
           (Mock.start (Mock.up ∅ 1))).
  vm_compute. reflexivity.
Defined.

Lemma Set_hides_remote_failure_witness :
  ∃ w1 w2 w3, Set_ Mock.hc Mock.testKey Mock.testValue (Mock.start Mock.off) = Returned () w1
              ∧ Get Mock.hc Mock.testKey w1 = Returned (Mock.testValue, true) w2
              ∧ GetFromRedis Mock.hc Mock.testKey w1 = Returned ([], false) w3.
Proof.
  apply (Set_hides_remote_failure Mock.hc Mock.testKey Mock.testValue
           (Mock.start Mock.off) Mock.refused);
    vm_compute; reflexivity.
Defined.

Lemma SetInMemoryCache_then_Get_witness :
  ∃ w1 w', SetInMemoryCache Mock.hc Mock.testKey Mock.testValue (Mock.start Mock.off)
           = Returned () w1
           ∧ remote w1 = Mock.off
           ∧ Get Mock.hc Mock.testKey w1 = Returned (Mock.testValue, true) w'
           ∧ calls w' = calls w1 ++ [CacheGet Mock.testKey]
           ∧ remote w' = Mock.off.
Proof.
  destruct (SetInMemoryCache_then_Get Mock.hc Mock.testKey Mock.testValue (Mock.start Mock.off))
    as (w1 & Eset & _ & Eremote & Hget).
  destruct Hget as (w' & Eget & Ecalls & Eremote'); [vm_compute; reflexivity | ].
  exists w1, w'. split; [exact Eset | ]. split; [exact Eremote | ].
  split; [exact Eget | ]. split; [exact Ecalls | exact Eremote'].
Defined.

Lemma Del_then_reads_miss_witness :
  ∃ w1, Del Mock.hc Mock.testKey Worlds.both = Returned () w1
        ∧ calls w1 = [CacheDel Mock.testKey; RedisDel Mock.testKey]
        ∧ (∃ w2, GetFromInMemoryCache Mock.hc Mock.testKey w1 = Returned ([], false) w2)
        ∧ (∃ w2, GetFromRedis Mock.hc Mock.testKey w1 = Returned ([], false) w2)
        ∧ (∃ w2, Get Mock.hc Mock.testKey w1 = Returned ([], false) w2).
Proof.
  apply (Del_then_reads_miss Mock.hc Mock.testKey Worlds.both Go.Nil);
    vm_compute; reflexivity.
Defined.

Lemma Del_undone_by_remote_value_witness :
  (∃ w', (Del Mock.hc Mock.testKey ≫= λ _, Get Mock.hc Mock.testKey) Worlds.replica
         = Returned (Mock.testValue, true) w')
  ∧ (∃ w', (DelFromInMemoryCache Mock.hc Mock.testKey ≫= λ _, Get Mock.hc Mock.testKey)
             Worlds.replica
           = Returned (Mock.testValue, true) w').
Proof.
  destruct (Del_undone_by_remote_value Mock.hc Mock.testKey Worlds.replica "testValue")
    as [Hdel Hlocal]; [vm_compute; reflexivity | ].
  split.
  - destruct Hdel as (w' & Erun & _); [vm_compute; reflexivity | ]. by exists w'.
  - destruct Hlocal as (w' & Erun & _); [vm_compute; reflexivity | ]. by exists w'.
Defined.

Lemma remote_deletes_keep_local_witness :
  (∃ w', (DelMultipleKeysFromRedis Mock.hc ["p:1"] ≫= λ _, Get Mock.hc "p:1") Worlds.paged
         = Returned (Mock.v2, true) w')
  ∧ local (final (DeleteKeysByPatternFromRedis 4 Mock.hc "p:*" Worlds.paged))
    = local Worlds.paged.
Proof.
  destruct (remote_deletes_keep_local Mock.hc "p:1" ["p:1"] 4 "p:*" Worlds.paged Mock.v2)
    as (Hframe & Hbatch & _); [vm_compute; reflexivity | ].
  split; [exact Hbatch | exact Hframe].
Defined.

Lemma DeleteKeysByPattern_never_completes_witness :
  ∃ w' cs, DeleteKeysByPatternFromRedis 50 Mock.hc "p:*" Worlds.endless = Spinning w'
           ∧ calls w' = cs
           ∧ length cs = 50%nat
           ∧ forallb is_scan cs = true.
Proof.
  apply (DeleteKeysByPattern_never_completes Mock.hc "p:*" Worlds.endless 50).
  intros c r. split; [reflexivity | discriminate].
Defined.

Lemma GetCacheKey_injective_witness :
  Prefix Mock.hc = Prefix Mock.hc
  ∧ SHA256.Sum (Go.bytes_of_string "some data") = SHA256.Sum (Go.bytes_of_string "some data").
Proof. apply (GetCacheKey_injective Mock.hc Mock.hc "some data" "some data"). reflexivity. Defined.

Lemma NewHybridCache_Config_budget_witness :
  Ristretto.MaxCost (NewHybridCache_Config Engine.unset) = 100
  ∧ Ristretto.NumCounters (NewHybridCache_Config Engine.unset) = 1000.
Proof.
  destruct (NewHybridCache_Config_budget Engine.unset) as (_ & Hdefault & _ & _ & Hcounters & _);
    [vm_compute; split; [discriminate | reflexivity] | ].
  split.
  - apply Hdefault. reflexivity.
  - rewrite Hcounters; [reflexivity | vm_compute; split; [discriminate | reflexivity]].
Defined.

End MoreWitnesses.
